(** * meanRev2.py: the pairs-trading [AutoTrader]

    A shallow embedding of [src/meanRev2.py].  Python integers are
    unbounded, so every price, volume, order id and the position are in
    [Z].  The two working sets [self.bids] and [self.asks] are Python
    [set]s of integers: [gset Z].  A ladder is the tuple
    [tuple(zip(prices, volumes))]: a [list (Z * Z)] of any length.

    The handlers are methods that mutate [self], call the two sending
    methods of the base class and may raise ([IndexError] when an empty
    ladder is indexed, [UnicodeDecodeError] when an error message is not
    valid UTF-8): they live in a small monad that threads the object,
    collects the messages sent and stops at the first exception, keeping
    the mutations made before it.

    Calls to [self.logger] are left out: they touch no field of the
    object.  Their arguments are evaluated all the same: the
    [error_message.decode()] that [on_error_message] passes to the logger
    is modelled, since it raises on bytes that are not valid UTF-8. *)

From Stdlib Require Import ZArith List Lia.
From Stdlib.Strings Require Import Byte.
From stdpp Require Import base tactics option list gmap sets.

Local Open Scope Z_scope.

#[local] Set Warnings "-clear-no-such-hyp".

(** ** Types imported from [ready_trader_go] *)

(** [Side]: the scanner only ever returns [Side.BID] or [Side.ASK]. *)
Inductive Side := ASK | BID.

(** Modelled from the spec: the order lifespans (the enumeration is imported
    from [ready_trader_go], whose source is not available).  [Lifespan.F],
    the value the controller passes, is the fill-or-kill lifespan. *)
Inductive Lifespan := FILL_OR_KILL | GOOD_FOR_DAY.

Definition Lifespan_F : Lifespan := FILL_OR_KILL.

(** [Instrument.ETF]: the handler receives the instrument as an integer and
    compares it with this constant; every other integer selects the future. *)
Definition Instrument_FUTURE : Z := 0.
Definition Instrument_ETF : Z := 1.

(** One price level, [(price, volume)]. *)
Definition Level : Type := Z * Z.

Definition Ladder : Type := list Level.

(** ** The object *)

Record AutoTrader := mkAutoTrader {
  order_ids : Z;            (* next value of [itertools.count(1)] *)
  bids : gset Z;
  asks : gset Z;
  ask_id : Z;
  ask_price : Z;
  bid_id : Z;
  bid_price : Z;
  position : Z;
  lastEtfBids : Ladder;
  lastEtfAsks : Ladder;
  lastFutureBids : Ladder;
  lastFutureAsks : Ladder
}.

(** [__init__] *)
Definition init : AutoTrader :=
  {| order_ids := 1;
     bids := ∅;
     asks := ∅;
     ask_id := 0; ask_price := 0; bid_id := 0; bid_price := 0; position := 0;
     lastEtfBids := [(0, 0); (0, 0)];
     lastEtfAsks := [(0, 0); (0, 0)];
     lastFutureBids := [(0, 0); (0, 0)];
     lastFutureAsks := [(0, 0); (0, 0)] |}.

(** Attribute assignments [self.f = v]. *)
Definition set_order_ids (v : Z) (s : AutoTrader) : AutoTrader :=
  mkAutoTrader v (bids s) (asks s) (ask_id s) (ask_price s) (bid_id s)
    (bid_price s) (position s) (lastEtfBids s) (lastEtfAsks s)
    (lastFutureBids s) (lastFutureAsks s).

Definition set_bids (v : gset Z) (s : AutoTrader) : AutoTrader :=
  mkAutoTrader (order_ids s) v (asks s) (ask_id s) (ask_price s) (bid_id s)
    (bid_price s) (position s) (lastEtfBids s) (lastEtfAsks s)
    (lastFutureBids s) (lastFutureAsks s).

Definition set_asks (v : gset Z) (s : AutoTrader) : AutoTrader :=
  mkAutoTrader (order_ids s) (bids s) v (ask_id s) (ask_price s) (bid_id s)
    (bid_price s) (position s) (lastEtfBids s) (lastEtfAsks s)
    (lastFutureBids s) (lastFutureAsks s).

Definition set_ask_id (v : Z) (s : AutoTrader) : AutoTrader :=
  mkAutoTrader (order_ids s) (bids s) (asks s) v (ask_price s) (bid_id s)
    (bid_price s) (position s) (lastEtfBids s) (lastEtfAsks s)
    (lastFutureBids s) (lastFutureAsks s).

Definition set_ask_price (v : Z) (s : AutoTrader) : AutoTrader :=
  mkAutoTrader (order_ids s) (bids s) (asks s) (ask_id s) v (bid_id s)
    (bid_price s) (position s) (lastEtfBids s) (lastEtfAsks s)
    (lastFutureBids s) (lastFutureAsks s).

Definition set_bid_id (v : Z) (s : AutoTrader) : AutoTrader :=
  mkAutoTrader (order_ids s) (bids s) (asks s) (ask_id s) (ask_price s) v
    (bid_price s) (position s) (lastEtfBids s) (lastEtfAsks s)
    (lastFutureBids s) (lastFutureAsks s).

Definition set_bid_price (v : Z) (s : AutoTrader) : AutoTrader :=
  mkAutoTrader (order_ids s) (bids s) (asks s) (ask_id s) (ask_price s)
    (bid_id s) v (position s) (lastEtfBids s) (lastEtfAsks s)
    (lastFutureBids s) (lastFutureAsks s).

Definition set_position (v : Z) (s : AutoTrader) : AutoTrader :=
  mkAutoTrader (order_ids s) (bids s) (asks s) (ask_id s) (ask_price s)
    (bid_id s) (bid_price s) v (lastEtfBids s) (lastEtfAsks s)
    (lastFutureBids s) (lastFutureAsks s).

Definition set_lastEtfBids (v : Ladder) (s : AutoTrader) : AutoTrader :=
  mkAutoTrader (order_ids s) (bids s) (asks s) (ask_id s) (ask_price s)
    (bid_id s) (bid_price s) (position s) v (lastEtfAsks s)
    (lastFutureBids s) (lastFutureAsks s).

Definition set_lastEtfAsks (v : Ladder) (s : AutoTrader) : AutoTrader :=
  mkAutoTrader (order_ids s) (bids s) (asks s) (ask_id s) (ask_price s)
    (bid_id s) (bid_price s) (position s) (lastEtfBids s) v
    (lastFutureBids s) (lastFutureAsks s).

Definition set_lastFutureBids (v : Ladder) (s : AutoTrader) : AutoTrader :=
  mkAutoTrader (order_ids s) (bids s) (asks s) (ask_id s) (ask_price s)
    (bid_id s) (bid_price s) (position s) (lastEtfBids s) (lastEtfAsks s)
    v (lastFutureAsks s).

Definition set_lastFutureAsks (v : Ladder) (s : AutoTrader) : AutoTrader :=
  mkAutoTrader (order_ids s) (bids s) (asks s) (ask_id s) (ask_price s)
    (bid_id s) (bid_price s) (position s) (lastEtfBids s) (lastEtfAsks s)
    (lastFutureBids s) v.

(** ** Messages sent to the exchange, and exceptions *)

Inductive Message :=
  | send_insert_order (client_order_id : Z) (side : Side) (price volume : Z)
      (lifespan : Lifespan)
  | send_hedge_order (client_order_id : Z) (side : Side) (price volume : Z).

Inductive Exn := IndexError | UnicodeDecodeError.

(** ** The method monad *)

Record Outcome (A : Type) := mkOutcome {
  result : Exn + A;         (* raised, or returned a value *)
  final : AutoTrader;       (* the object when the call ends *)
  sent : list Message       (* messages sent during the call, in order *)
}.

Arguments mkOutcome {A} _ _ _.
Arguments result {A} _.
Arguments final {A} _.
Arguments sent {A} _.

Definition M (A : Type) : Type := AutoTrader -> Outcome A.

Definition ret {A} (a : A) : M A := fun s => mkOutcome (inr a) s [].

Definition raise {A} (e : Exn) : M A := fun s => mkOutcome (inl e) s [].

Definition bind {A B} (m : M A) (f : A -> M B) : M B := fun s =>
  let o := m s in
  match result o with
  | inl e => mkOutcome (inl e) (final o) (sent o)
  | inr a =>
      let o' := f a (final o) in
      mkOutcome (result o') (final o') (sent o ++ sent o')
  end.

Definition get : M AutoTrader := fun s => mkOutcome (inr s) s [].

Definition modify (f : AutoTrader -> AutoTrader) : M unit :=
  fun s => mkOutcome (inr tt) (f s) [].

Definition send (m : Message) : M unit := fun s => mkOutcome (inr tt) s [m].

#[global] Instance M_ret : MRet M := @ret.
#[global] Instance M_bind : MBind M := fun A B f m => bind m f.

(** [next(self.order_ids)] *)
Definition next_order_id : M Z :=
  s ← get; modify (set_order_ids (order_ids s + 1));; mret (order_ids s).

(** [ladder[0]]: raises [IndexError] on the empty tuple. *)
Definition index0 (l : Ladder) : M Level :=
  match l with
  | [] => raise IndexError
  | x :: _ => ret x
  end.

(** ** The scanner: [get_max_possible_trade] *)

(** The three locals [(max_volume, etf_price, fut_price)] of the method. *)
Definition Locals : Type := Z * Z * Z.

(** Body of the inner loop of the first branch: [ask] is an ETF ask, [bid]
    a future bid. *)
Definition buy_etf_body (ask : Level) (acc : Locals) (bid : Level) : Locals :=
  let '(max_volume, etf_price, fut_price) := acc in
  if ask.1 <? bid.1
  then (max_volume + Z.min ask.2 bid.2, ask.1, bid.1)
  else acc.

(** Body of the inner loop of the second branch: [ask] is a future ask,
    [bid] an ETF bid. *)
Definition sell_etf_body (ask : Level) (acc : Locals) (bid : Level) : Locals :=
  let '(max_volume, etf_price, fut_price) := acc in
  if ask.1 <? bid.1
  then (max_volume + Z.min ask.2 bid.2, bid.1, ask.1)
  else acc.

(** [for ask in outer: for bid in inner: body] *)
Definition scan (body : Level -> Locals -> Level -> Locals)
    (outer inner : Ladder) (acc : Locals) : Locals :=
  fold_left (fun acc ask => fold_left (body ask) inner acc) outer acc.

Definition get_max_possible_trade : M (Z * Z * Side * Z) :=
  s ← get;
  a0 ← index0 (lastEtfAsks s);
  b0 ← index0 (lastFutureBids s);
  if a0.1 <? b0.1 then
    let '(max_volume, etf_price, fut_price) :=
      scan buy_etf_body (lastEtfAsks s) (lastFutureBids s) (0, 0, 0) in
    mret (etf_price, max_volume, BID, fut_price)
  else
    b0' ← index0 (lastEtfBids s);
    a0' ← index0 (lastFutureAsks s);
    if b0'.1 >? a0'.1 then
      let '(max_volume, etf_price, fut_price) :=
        scan sell_etf_body (lastFutureAsks s) (lastEtfBids s) (0, 0, 0) in
      mret (etf_price, max_volume, ASK, fut_price)
    else mret (0, 0, BID, 0).

(** ** The event handlers *)

(** [self.bids.discard(x)] and [self.asks.discard(x)] *)
Definition discard_bid (x : Z) (s : AutoTrader) : AutoTrader :=
  set_bids (bids s ∖ {[x]}) s.

Definition discard_ask (x : Z) (s : AutoTrader) : AutoTrader :=
  set_asks (asks s ∖ {[x]}) s.

Definition on_order_status_message
    (client_order_id fill_volume remaining_volume fees : Z) : M unit :=
  if bool_decide (remaining_volume = 0) then
    s ← get;
    (if bool_decide (client_order_id = bid_id s) then modify (set_bid_id 0)
     else if bool_decide (client_order_id = ask_id s) then modify (set_ask_id 0)
     else mret tt);;
    modify (discard_bid client_order_id);;
    modify (discard_ask client_order_id)
  else mret tt.

(** [bytes.decode()], with its defaults: UTF-8, strict.  The decoder
    accepts exactly the well-formed byte sequences of the Unicode standard:
    no stray or missing continuation byte, no overlong form (lead bytes C0
    and C1, E0 followed by less than A0, F0 followed by less than 90), no
    surrogate (ED followed by A0 or more), nothing above U+10FFFF (F4
    followed by 90 or more, lead bytes F5 to FF). *)
Definition byte_value (b : Byte.byte) : Z := Z.of_N (Byte.to_N b).

Definition in_range (lo hi b : Z) : bool := (lo <=? b) && (b <=? hi).

(** A continuation byte, 80 to BF. *)
Definition continuation (b : Z) : bool := in_range 128 191 b.

Fixpoint well_formed_utf8 (bs : list Z) : bool :=
  match bs with
  | [] => true
  | b0 :: r0 =>
      if b0 <=? 127 then well_formed_utf8 r0                    (* 00..7F *)
      else if in_range 194 223 b0 then                          (* C2..DF *)
        match r0 with
        | b1 :: r1 => continuation b1 && well_formed_utf8 r1
        | _ => false
        end
      else if in_range 224 239 b0 then                          (* E0..EF *)
        match r0 with
        | b1 :: b2 :: r2 =>
            in_range (if b0 =? 224 then 160 else 128)
                     (if b0 =? 237 then 159 else 191) b1
            && continuation b2 && well_formed_utf8 r2
        | _ => false
        end
      else if in_range 240 244 b0 then                          (* F0..F4 *)
        match r0 with
        | b1 :: b2 :: b3 :: r3 =>
            in_range (if b0 =? 240 then 144 else 128)
                     (if b0 =? 244 then 143 else 191) b1
            && continuation b2 && continuation b3 && well_formed_utf8 r3
        | _ => false
        end
      else false
  end.

(** Whether [error_message.decode()] returns. *)
Definition decodes (error_message : list Byte.byte) : bool :=
  well_formed_utf8 (List.map byte_value error_message).

(** The decoded string only goes to the logger: the model keeps whether the
    call returns or raises. *)
Definition bytes_decode (error_message : list Byte.byte) : M unit :=
  if decodes error_message then mret tt else raise UnicodeDecodeError.

Definition on_error_message (client_order_id : Z) (error_message : list Byte.byte)
    : M unit :=
  bytes_decode error_message;;
  s ← get;
  if bool_decide (client_order_id ≠ 0)
     && (bool_decide (client_order_id ∈ bids s)
         || bool_decide (client_order_id ∈ asks s))
  then on_order_status_message client_order_id 0 0 0
  else mret tt.

Definition on_hedge_filled_message (client_order_id price volume : Z)
    : M unit :=
  mret tt.

(** The first statement of [on_order_book_update_message]: the ladders of
    the instrument are rebuilt from the four lists of the message. *)
Definition store_ladders (instrument : Z)
    (ask_prices ask_volumes bid_prices bid_volumes : list Z) : M unit :=
  if bool_decide (instrument = Instrument_ETF) then
    modify (set_lastEtfBids (zip bid_prices bid_volumes));;
    modify (set_lastEtfAsks (zip ask_prices ask_volumes))
  else
    modify (set_lastFutureBids (zip bid_prices bid_volumes));;
    modify (set_lastFutureAsks (zip ask_prices ask_volumes)).

Definition on_order_book_update_message (instrument sequence_number : Z)
    (ask_prices ask_volumes bid_prices bid_volumes : list Z) : M unit :=
  store_ladders instrument ask_prices ask_volumes bid_prices bid_volumes;;
  '(etf_price, volume, side, fut_price) ← get_max_possible_trade;
  if bool_decide (etf_price ≠ 0) && bool_decide (volume ≠ 0) then
    match side with
    | ASK =>
        modify (set_ask_price etf_price);;
        i ← next_order_id;
        modify (set_ask_id i);;
        s ← get;
        send (send_insert_order (ask_id s) side etf_price volume Lifespan_F);;
        j ← next_order_id;
        send (send_hedge_order j BID fut_price volume)
    | BID =>
        modify (set_bid_price etf_price);;
        i ← next_order_id;
        modify (set_bid_id i);;
        s ← get;
        send (send_insert_order (bid_id s) side etf_price volume Lifespan_F);;
        j ← next_order_id;
        send (send_hedge_order j ASK fut_price volume)
    end
  else mret tt.

Definition on_order_filled_message (client_order_id price volume : Z)
    : M unit :=
  s ← get;
  if bool_decide (client_order_id ∈ bids s) then
    modify (set_position (position s + volume))
  else if bool_decide (client_order_id ∈ asks s) then
    modify (set_position (position s - volume))
  else mret tt.

Definition on_trade_ticks_message (instrument sequence_number : Z)
    (ask_prices ask_volumes bid_prices bid_volumes : list Z) : M unit :=
  mret tt.

(** ** Runs of the trader *)

(** The messages the exchange delivers, one constructor per handler. *)
Inductive Event :=
  | ErrorMessage (client_order_id : Z) (error_message : list Byte.byte)
  | HedgeFilled (client_order_id price volume : Z)
  | OrderBookUpdate (instrument sequence_number : Z)
      (ask_prices ask_volumes bid_prices bid_volumes : list Z)
  | OrderFilled (client_order_id price volume : Z)
  | OrderStatus (client_order_id fill_volume remaining_volume fees : Z)
  | TradeTicks (instrument sequence_number : Z)
      (ask_prices ask_volumes bid_prices bid_volumes : list Z).

Definition handle (e : Event) : M unit :=
  match e with
  | ErrorMessage i m => on_error_message i m
  | HedgeFilled i p v => on_hedge_filled_message i p v
  | OrderBookUpdate i n ap av bp bv => on_order_book_update_message i n ap av bp bv
  | OrderFilled i p v => on_order_filled_message i p v
  | OrderStatus i f r c => on_order_status_message i f r c
  | TradeTicks i n ap av bp bv => on_trade_ticks_message i n ap av bp bv
  end.

(** The object after a sequence of events, each handled to completion (a
    handler that raises leaves the object as it was at the raise). *)
Definition run (es : list Event) (s : AutoTrader) : AutoTrader :=
  fold_left (fun s e => final (handle e s)) es s.

Inductive reachable : AutoTrader -> Prop :=
  | reachable_init : reachable init
  | reachable_step s e : reachable s -> reachable (final (handle e s)).

Arguments scan : simpl never.

(** ** What the spec says the scanner computes

    Named after the spec's words, to be compared with [scan]. *)

(** The pairs of the full cross product, outer ladder first. *)
Definition cross_product (outer inner : Ladder) : list (Level * Level) :=
  list_prod outer inner.

(** A pair qualifies when the ask price is strictly below the bid price. *)
Definition qualifies (p : Level * Level) : bool := p.1.1 <? p.2.1.

Definition qualifying_pairs (outer inner : Ladder) : list (Level * Level) :=
  List.filter qualifies (cross_product outer inner).

(** The sum of [min(ask.volume, bid.volume)] over a list of pairs. *)
Definition accumulated_volume (ps : list (Level * Level)) : Z :=
  fold_right (fun p v => Z.min p.1.2 p.2.2 + v) 0 ps.

(** ** Auxiliary definitions for the statements *)

(** The object after the first statement of the book-update handler. *)
Definition stored (instrument : Z)
    (ask_prices ask_volumes bid_prices bid_volumes : list Z) (s : AutoTrader)
    : AutoTrader :=
  if bool_decide (instrument = Instrument_ETF)
  then set_lastEtfAsks (zip ask_prices ask_volumes)
         (set_lastEtfBids (zip bid_prices bid_volumes) s)
  else set_lastFutureAsks (zip ask_prices ask_volumes)
         (set_lastFutureBids (zip bid_prices bid_volumes) s).

(** The object after an order and its hedge have been sent on a side. *)
Definition placed (side : Side) (etf_price : Z) (s : AutoTrader) : AutoTrader :=
  match side with
  | ASK => set_order_ids (order_ids s + 1 + 1)
             (set_ask_id (order_ids s)
                (set_order_ids (order_ids s + 1) (set_ask_price etf_price s)))
  | BID => set_order_ids (order_ids s + 1 + 1)
             (set_bid_id (order_ids s)
                (set_order_ids (order_ids s + 1) (set_bid_price etf_price s)))
  end.

Definition opposite (side : Side) : Side :=
  match side with ASK => BID | BID => ASK end.

(** The object after a status message with no remaining volume. *)
Definition closed (client_order_id : Z) (s : AutoTrader) : AutoTrader :=
  discard_ask client_order_id
    (discard_bid client_order_id
       (if bool_decide (client_order_id = bid_id s) then set_bid_id 0 s
        else if bool_decide (client_order_id = ask_id s) then set_ask_id 0 s
        else s)).

(** The invariant of the runs: the counter is ahead of both slots, the
    slots differ unless empty, the working sets are empty and the position
    is zero. *)
Definition Inv (s : AutoTrader) : Prop :=
  1 <= order_ids s /\ bid_id s < order_ids s /\ ask_id s < order_ids s /\
  (bid_id s = ask_id s -> bid_id s = 0) /\
  bids s = ∅ /\ asks s = ∅ /\ position s = 0.

(** The ladders of the two worked examples of the spec. *)
Definition one_ask_padded : Ladder := [(100, 5); (0, 0); (0, 0); (0, 0); (0, 0)].
Definition one_bid_padded : Ladder := [(200, 3); (0, 0); (0, 0); (0, 0); (0, 0)].

(** A run in which the ETF update opens the first gate: the future book was
    stored first, with its best bid at 200. *)
Definition future_then_etf : list Event :=
  [OrderBookUpdate Instrument_FUTURE 1 [201] [7] [200] [3];
   OrderBookUpdate Instrument_ETF 1 [100] [5] [99] [3]].

(** The object once the future book of that run is stored, and at its end,
    when the BID order and its hedge have been sent. *)
Definition future_stored : AutoTrader :=
  run [OrderBookUpdate Instrument_FUTURE 1 [201] [7] [200] [3]] init.

Definition bid_order_sent : AutoTrader := run future_then_etf init.

(** ** Further definitions: constants of the module, traces of runs *)

(** The module constants.  [MINIMUM_BID] and [MAXIMUM_ASK] are imported from
    [ready_trader_go]: the two derived constants take them as arguments.
    Python's [//] is floor division, as [Z.div] is for a positive divisor. *)
Definition LOT_SIZE : Z := 10.
Definition POSITION_LIMIT : Z := 100.
Definition TICK_SIZE_IN_CENTS : Z := 100.

Definition MIN_BID_NEAREST_TICK (MINIMUM_BID : Z) : Z :=
  (MINIMUM_BID + TICK_SIZE_IN_CENTS) / TICK_SIZE_IN_CENTS * TICK_SIZE_IN_CENTS.

Definition MAX_ASK_NEAREST_TICK (MAXIMUM_ASK : Z) : Z :=
  MAXIMUM_ASK / TICK_SIZE_IN_CENTS * TICK_SIZE_IN_CENTS.

(** The test that opens a branch of the scanner: both ladders have a first
    level and the first price of [asks] is below the first price of [bids]. *)
Definition gate_open (asks bids : Ladder) : bool :=
  match asks, bids with
  | a :: _, b :: _ => a.1 <? b.1
  | _, _ => false
  end.

(** The messages sent during a run, in order. *)
Fixpoint run_sent (es : list Event) (s : AutoTrader) : list Message :=
  match es with
  | [] => []
  | e :: es => sent (handle e s) ++ run_sent es (final (handle e s))
  end.

Definition message_id (m : Message) : Z :=
  match m with
  | send_insert_order i _ _ _ _ => i
  | send_hedge_order i _ _ _ => i
  end.

(** All volumes of a ladder are non-negative. *)
Definition volumes_nonneg (l : Ladder) : Prop := Forall (fun x => 0 <= x.2) l.

(** A slot of the ledger is either empty or holds an odd id allocated
    earlier, with a non-zero price beside it. *)
Definition slot_ok (id price next : Z) : Prop :=
  id = 0 \/ (Z.odd id = true /\ 0 < id < next /\ price <> 0).

(** What each message of a run satisfies. *)
Definition message_ok (m : Message) : Prop :=
  match m with
  | send_insert_order i _ p v l =>
      Z.odd i = true /\ l = Lifespan_F /\ p <> 0 /\ v <> 0
  | send_hedge_order i _ _ v => Z.even i = true /\ v <> 0
  end.

(** * Proofs *)

(** Unfolding of the monad, for evaluating a method on a symbolic object. *)
Ltac run_method :=
  unfold mbind, M_bind, mret, M_ret, bind, ret, raise, get, modify, send;
  cbn [result final sent].

Section Scanner.

(** The last element of a non-empty list does not depend on the default. *)
Lemma last_nonempty_default {A} (x y : A) l d d' :
  List.last (x :: y :: l) d = List.last (y :: l) d'.
Proof.
  cbn [List.last]. revert y. induction l as [|z l IH]; intros y; [reflexivity|].
  apply (IH z).
Qed.

(** The nested loops visit the cross product in order. *)
Lemma scan_cross_product body outer inner acc :
  scan body outer inner acc =
  fold_left (fun acc p => body p.1 acc p.2) (cross_product outer inner) acc.
Proof.
  unfold scan, cross_product. revert acc.
  induction outer as [|ask outer IH]; intros acc; [reflexivity|].
  cbn [fold_left list_prod]. rewrite fold_left_app, IH. f_equal.
  generalize acc. clear.
  induction inner as [|bid inner IH]; intros acc; [reflexivity|].
  cbn [fold_left List.map]. apply IH.
Qed.

(** Over a list of pairs, the first loop body adds the volume of every
    qualifying pair and keeps the prices of the last one. *)
Lemma buy_etf_fold ps v e f :
  fold_left (fun acc p => buy_etf_body p.1 acc p.2) ps (v, e, f) =
  (v + accumulated_volume (List.filter qualifies ps),
   List.last (List.map (fun p => p.1.1) (List.filter qualifies ps)) e,
   List.last (List.map (fun p => p.2.1) (List.filter qualifies ps)) f).
Proof.
  revert v e f. induction ps as [|p ps IH]; intros v e f.
  - cbn. rewrite Z.add_0_r. reflexivity.
  - cbn [fold_left List.filter].
    replace (buy_etf_body p.1 (v, e, f) p.2)
      with (if qualifies p then (v + Z.min p.1.2 p.2.2, p.1.1, p.2.1) else (v, e, f))
      by reflexivity.
    destruct (qualifies p).
    + rewrite IH. cbn [accumulated_volume fold_right List.map].
      rewrite Z.add_assoc.
      destruct (List.filter qualifies ps) as [|q qs]; [reflexivity|].
      cbn [List.map]. f_equal; [f_equal|]; symmetry; apply last_nonempty_default.
    + apply IH.
Qed.

Lemma sell_etf_fold ps v e f :
  fold_left (fun acc p => sell_etf_body p.1 acc p.2) ps (v, e, f) =
  (v + accumulated_volume (List.filter qualifies ps),
   List.last (List.map (fun p => p.2.1) (List.filter qualifies ps)) e,
   List.last (List.map (fun p => p.1.1) (List.filter qualifies ps)) f).
Proof.
  revert v e f. induction ps as [|p ps IH]; intros v e f.
  - cbn. rewrite Z.add_0_r. reflexivity.
  - cbn [fold_left List.filter].
    replace (sell_etf_body p.1 (v, e, f) p.2)
      with (if qualifies p then (v + Z.min p.1.2 p.2.2, p.2.1, p.1.1) else (v, e, f))
      by reflexivity.
    destruct (qualifies p).
    + rewrite IH. cbn [accumulated_volume fold_right List.map].
      rewrite Z.add_assoc.
      destruct (List.filter qualifies ps) as [|q qs]; [reflexivity|].
      cbn [List.map]. f_equal; [f_equal|]; symmetry; apply last_nonempty_default.
    + apply IH.
Qed.

(** The scanner reads the object and nothing else: it leaves it as it was
    and sends nothing, whether it returns or raises. *)
Lemma get_max_possible_trade_pure s :
  final (get_max_possible_trade s) = s /\ sent (get_max_possible_trade s) = [].
Proof.
  unfold get_max_possible_trade, index0. run_method.
  destruct (lastEtfAsks s) as [|a0 ?]; run_method; [done|].
  destruct (lastFutureBids s) as [|b0 ?]; run_method; [done|].
  destruct (a0.1 <? b0.1).
  - destruct (scan _ _ _ _) as [[? ?] ?]. done.
  - destruct (lastEtfBids s) as [|b0' ?]; run_method; [done|].
    destruct (lastFutureAsks s) as [|a0' ?]; run_method; [done|].
    destruct (b0'.1 >? a0'.1); [|done].
    destruct (scan _ _ _ _) as [[? ?] ?]. done.
Qed.

(** When the first gate opens, the scanner returns the volume accumulated
    over the qualifying pairs of the whole cross product and the prices of
    the last qualifying pair, ETF asks outer, future bids inner. *)
Lemma get_max_possible_trade_buy s a0 ra b0 rb :
  lastEtfAsks s = a0 :: ra -> lastFutureBids s = b0 :: rb -> a0.1 < b0.1 ->
  let qs := qualifying_pairs (lastEtfAsks s) (lastFutureBids s) in
  result (get_max_possible_trade s) =
  inr (List.last (List.map (fun p => p.1.1) qs) 0, accumulated_volume qs, BID,
       List.last (List.map (fun p => p.2.1) qs) 0).
Proof.
  intros Ha Hb Hlt qs. unfold get_max_possible_trade, index0. run_method.
  rewrite scan_cross_product, buy_etf_fold. fold (qualifying_pairs (lastEtfAsks s) (lastFutureBids s)). fold qs.
  rewrite Ha, Hb. run_method.
  destruct (Z.ltb_spec a0.1 b0.1); [|lia]. reflexivity.
Qed.

(** The same for the second gate: future asks outer, ETF bids inner. *)
Lemma get_max_possible_trade_sell s a0 ra b0 rb b0' rb' a0' ra' :
  lastEtfAsks s = a0 :: ra -> lastFutureBids s = b0 :: rb ->
  lastEtfBids s = b0' :: rb' -> lastFutureAsks s = a0' :: ra' ->
  b0.1 <= a0.1 -> a0'.1 < b0'.1 ->
  let qs := qualifying_pairs (lastFutureAsks s) (lastEtfBids s) in
  result (get_max_possible_trade s) =
  inr (List.last (List.map (fun p => p.2.1) qs) 0, accumulated_volume qs, ASK,
       List.last (List.map (fun p => p.1.1) qs) 0).
Proof.
  intros Ha Hb Hb' Ha' Hge Hlt qs.
  pose proof (scan_cross_product sell_etf_body (lastFutureAsks s)
                (lastEtfBids s) (0, 0, 0)) as Hs.
  rewrite sell_etf_fold in Hs.
  unfold get_max_possible_trade, index0. run_method.
  set (r := scan sell_etf_body _ _ _) in *. clearbody r. subst r.
  rewrite Ha, Hb. run_method.
  destruct (Z.ltb_spec a0.1 b0.1); [lia|].
  rewrite Hb', Ha'. run_method.
  destruct (Z.gtb_spec b0'.1 a0'.1); [|lia].
  subst qs. unfold qualifying_pairs. rewrite Hb', Ha'. reflexivity.
Qed.

(** C5: when the best ETF ask is not below the best future bid and the best
    ETF bid is not above the best future ask, the scanner returns price 0,
    volume 0 and hedge price 0 (with side BID); it leaves the object as it
    was and sends nothing. *)
Theorem no_opportunity_returns_zero s a0 ra b0 rb b0' rb' a0' ra' :
  lastEtfAsks s = a0 :: ra -> lastFutureBids s = b0 :: rb ->
  lastEtfBids s = b0' :: rb' -> lastFutureAsks s = a0' :: ra' ->
  a0.1 >= b0.1 -> b0'.1 <= a0'.1 ->
  get_max_possible_trade s = mkOutcome (inr (0, 0, BID, 0)) s [].
Proof.
  intros Ha Hb Hb' Ha' Hge Hle.
  unfold get_max_possible_trade, index0. run_method.
  rewrite Ha, Hb. run_method.
  destruct (Z.ltb_spec a0.1 b0.1); [lia|].
  rewrite Hb', Ha'. run_method.
  destruct (Z.gtb_spec b0'.1 a0'.1); [lia|]. reflexivity.
Qed.

Lemma no_opportunity_returns_zero_witness :
  get_max_possible_trade
    (set_lastEtfAsks [(200, 5); (201, 7)]
       (set_lastFutureBids [(200, 3); (199, 1)]
          (set_lastEtfBids [(198, 2)]
             (set_lastFutureAsks [(198, 4); (0, 0)] init)))) =
  mkOutcome (inr (0, 0, BID, 0))
    (set_lastEtfAsks [(200, 5); (201, 7)]
       (set_lastFutureBids [(200, 3); (199, 1)]
          (set_lastEtfBids [(198, 2)]
             (set_lastFutureAsks [(198, 4); (0, 0)] init)))) [].
Proof.
  apply (no_opportunity_returns_zero _ (200, 5) [(201, 7)] (200, 3) [(199, 1)]
           (198, 2) [] (198, 4) [(0, 0)]); cbn; solve [reflexivity | lia].
Defined.

(** C2, evaluated on the code: with the ETF asks [(100,5)] and the future
    bids [(200,3)] each followed by four (0,0) levels, the (0,0) asks
    qualify against the future bid at 200, so the last qualifying pair is
    ((0,0),(200,3)) and the scanner returns price 0 (not 100), volume 3,
    side BID, hedge price 200. *)
Theorem scanner_padded_single_level s :
  let s' := set_lastEtfAsks one_ask_padded (set_lastFutureBids one_bid_padded s) in
  qualifying_pairs (lastEtfAsks s') (lastFutureBids s') =
    [((100, 5), (200, 3)); ((0, 0), (200, 3)); ((0, 0), (200, 3));
     ((0, 0), (200, 3)); ((0, 0), (200, 3))] /\
  result (get_max_possible_trade s') = inr (0, 3, BID, 200).
Proof. split; reflexivity. Qed.

(** Without the padding levels the same example gives the price 100. *)
Lemma scanner_unpadded_single_level s :
  result (get_max_possible_trade
            (set_lastEtfAsks [(100, 5)] (set_lastFutureBids [(200, 3)] s))) =
  inr (100, 3, BID, 200).
Proof. reflexivity. Qed.

(** C6: with ETF asks [(100,5),(101,5)] and future bids [(200,3),(150,4)]
    all four pairs of the cross product qualify, the volume is
    3+4+3+4 = 14 and the prices are those of the last pair in iteration
    order, 101 and 150. *)
Theorem scanner_accumulates_cross_product s :
  let s' := set_lastEtfAsks [(100, 5); (101, 5)]
              (set_lastFutureBids [(200, 3); (150, 4)] s) in
  qualifying_pairs (lastEtfAsks s') (lastFutureBids s') =
    [((100, 5), (200, 3)); ((100, 5), (150, 4));
     ((101, 5), (200, 3)); ((101, 5), (150, 4))] /\
  accumulated_volume (qualifying_pairs (lastEtfAsks s') (lastFutureBids s')) =
    3 + 4 + 3 + 4 /\
  result (get_max_possible_trade s') = inr (101, 14, BID, 150).
Proof. repeat split; reflexivity. Qed.

End Scanner.

Section Controller.

Lemma store_ladders_outcome i ap av bp bv s :
  store_ladders i ap av bp bv s = mkOutcome (inr tt) (stored i ap av bp bv s) [].
Proof.
  unfold store_ladders, stored. case_bool_decide; reflexivity.
Qed.

(** The book-update handler, by cases on what the scanner does on the
    object with the new ladders. *)
Lemma on_order_book_update_message_cases i n ap av bp bv s :
  let s1 := stored i ap av bp bv s in
  on_order_book_update_message i n ap av bp bv s =
  match result (get_max_possible_trade s1) with
  | inl e => mkOutcome (inl e) s1 []
  | inr (etf_price, volume, side, fut_price) =>
      if bool_decide (etf_price ≠ 0) && bool_decide (volume ≠ 0)
      then mkOutcome (inr tt) (placed side etf_price s1)
             [send_insert_order (order_ids s1) side etf_price volume Lifespan_F;
              send_hedge_order (order_ids s1 + 1) (opposite side) fut_price volume]
      else mkOutcome (inr tt) s1 []
  end.
Proof.
  intros s1. unfold on_order_book_update_message. run_method.
  rewrite store_ladders_outcome. cbn [result final sent]. fold s1.
  destruct (get_max_possible_trade_pure s1) as [Hf Hs].
  destruct (get_max_possible_trade s1) as [r f m]. cbn in Hf, Hs. subst f m.
  cbn [result final sent].
  destruct r as [e|[[[etf_price volume] side] fut_price]]; [reflexivity|].
  destruct (bool_decide (etf_price ≠ 0) && bool_decide (volume ≠ 0));
    [|reflexivity].
  destruct side; reflexivity.
Qed.

(** C3, as the code has it: the handler replaces both ladders of the
    updated instrument by the zip of the lists of the message and leaves
    those of the other instrument as they were; a stored ladder has as many
    levels as the shorter of its two lists, with no padding. *)
Theorem book_update_replaces_ladders i n ap av bp bv s :
  let s' := final (on_order_book_update_message i n ap av bp bv s) in
  (lastEtfBids s', lastEtfAsks s', lastFutureBids s', lastFutureAsks s') =
    (if bool_decide (i = Instrument_ETF)
     then (zip bp bv, zip ap av, lastFutureBids s, lastFutureAsks s)
     else (lastEtfBids s, lastEtfAsks s, zip bp bv, zip ap av)) /\
  length (zip bp bv) = Nat.min (length bp) (length bv) /\
  length (zip ap av) = Nat.min (length ap) (length av).
Proof.
  intros s'. split; [|split; apply length_zip_with].
  subst s'. rewrite on_order_book_update_message_cases.
  assert (Hst : forall side p s1,
    (lastEtfBids (placed side p s1), lastEtfAsks (placed side p s1),
     lastFutureBids (placed side p s1), lastFutureAsks (placed side p s1)) =
    (lastEtfBids s1, lastEtfAsks s1, lastFutureBids s1, lastFutureAsks s1))
    by (intros [] ? ?; reflexivity).
  assert (Hs1 : let s1 := stored i ap av bp bv s in
    (lastEtfBids s1, lastEtfAsks s1, lastFutureBids s1, lastFutureAsks s1) =
    (if bool_decide (i = Instrument_ETF)
     then (zip bp bv, zip ap av, lastFutureBids s, lastFutureAsks s)
     else (lastEtfBids s, lastEtfAsks s, zip bp bv, zip ap av)))
    by (unfold stored; case_bool_decide; reflexivity).
  cbv zeta in Hs1.
  destruct (result _) as [e|[[[etf_price volume] side] fut_price]];
    [exact Hs1|].
  destruct (_ && _); cbn [final]; [rewrite Hst|]; exact Hs1.
Qed.

(** C3 as stated fails: a one-level update is stored as a one-level ladder. *)
Lemma book_update_short_ladder_not_padded :
  lastEtfAsks (final (on_order_book_update_message Instrument_ETF 1
                        [100] [5] [99] [4] init)) = [(100, 5)] /\
  length (lastEtfAsks (final (on_order_book_update_message Instrument_ETF 1
                                [100] [5] [99] [4] init))) <> 5%nat.
Proof. split; [reflexivity | vm_compute; discriminate]. Qed.

(** C4: when the scanner, run on the object with the new ladders, returns
    a BID-side result with non-zero price and volume, the handler returns
    normally and sends exactly two messages: the order (the next order id,
    side BID, the reported price and volume, lifespan fill-or-kill), then
    the hedge (the following id, side ASK, the reported future price, the
    same volume). *)
Theorem bid_opportunity_submissions i n ap av bp bv s etf_price volume fut_price :
  result (get_max_possible_trade (final (store_ladders i ap av bp bv s))) =
    inr (etf_price, volume, BID, fut_price) ->
  etf_price <> 0 -> volume <> 0 ->
  result (on_order_book_update_message i n ap av bp bv s) = inr tt /\
  sent (on_order_book_update_message i n ap av bp bv s) =
    [send_insert_order (order_ids s) BID etf_price volume FILL_OR_KILL;
     send_hedge_order (order_ids s + 1) ASK fut_price volume].
Proof.
  intros Hscan Hp Hv. rewrite store_ladders_outcome in Hscan. cbn [final] in Hscan.
  rewrite on_order_book_update_message_cases. cbv zeta. rewrite Hscan.
  rewrite !bool_decide_eq_true_2 by assumption. cbn [andb result sent].
  replace (order_ids (stored i ap av bp bv s)) with (order_ids s)
    by (unfold stored; case_bool_decide; reflexivity).
  split; reflexivity.
Qed.

Lemma bid_opportunity_submissions_witness :
  result (on_order_book_update_message Instrument_ETF 1 [100] [5] [99] [3]
            future_stored) = inr tt /\
  sent (on_order_book_update_message Instrument_ETF 1 [100] [5] [99] [3]
          future_stored) =
    [send_insert_order 1 BID 100 3 FILL_OR_KILL; send_hedge_order 2 ASK 200 3].
Proof.
  apply (bid_opportunity_submissions Instrument_ETF 1 [100] [5] [99] [3]
           future_stored 100 3 200); [reflexivity | lia | lia].
Defined.

End Controller.

Section Ledger.

(** The decoder on the boundaries of the table of well-formed sequences. *)
Lemma decodes_examples :
  decodes [] = true /\
  decodes [Byte.x6f; Byte.x6b] = true /\                       (* "ok" *)
  decodes [Byte.xc3; Byte.xa9] = true /\                       (* U+00E9 *)
  decodes [Byte.xe2; Byte.x82; Byte.xac] = true /\             (* U+20AC *)
  decodes [Byte.xf4; Byte.x8f; Byte.xbf; Byte.xbf] = true /\   (* U+10FFFF *)
  decodes [Byte.xff] = false /\                         (* no such lead *)
  decodes [Byte.x80] = false /\                  (* stray continuation *)
  decodes [Byte.xc0; Byte.x80] = false /\                  (* overlong *)
  decodes [Byte.xe0; Byte.x80; Byte.x80] = false /\        (* overlong *)
  decodes [Byte.xed; Byte.xa0; Byte.x80] = false /\       (* surrogate *)
  decodes [Byte.xf4; Byte.x90; Byte.x80; Byte.x80] = false /\ (* > 10FFFF *)
  decodes [Byte.xe2; Byte.x82] = false.                   (* truncated *)
Proof. repeat split; reflexivity. Qed.

Lemma on_order_status_message_outcome i f r c s :
  on_order_status_message i f r c s =
  mkOutcome (inr tt) (if bool_decide (r = 0) then closed i s else s) [].
Proof.
  unfold on_order_status_message, closed.
  case_bool_decide; [|reflexivity]. run_method.
  repeat case_bool_decide; reflexivity.
Qed.

Lemma on_error_message_outcome i m s :
  on_error_message i m s =
  mkOutcome (if decodes m then inr tt else inl UnicodeDecodeError)
    (if decodes m
        && (bool_decide (i ≠ 0)
            && (bool_decide (i ∈ bids s) || bool_decide (i ∈ asks s)))
     then closed i s else s) [].
Proof.
  unfold on_error_message, bytes_decode. run_method.
  destruct (decodes m); run_method; [|reflexivity]. cbn [andb].
  destruct (_ && _); [|reflexivity].
  rewrite on_order_status_message_outcome. reflexivity.
Qed.

Lemma on_order_filled_message_outcome i p v s :
  on_order_filled_message i p v s =
  mkOutcome (inr tt)
    (if bool_decide (i ∈ bids s) then set_position (position s + v) s
     else if bool_decide (i ∈ asks s) then set_position (position s - v) s
     else s) [].
Proof.
  unfold on_order_filled_message. run_method.
  repeat case_bool_decide; reflexivity.
Qed.

(** Two objects with the same fields are the same object. *)
Lemma AutoTrader_eq s t :
  order_ids s = order_ids t -> bids s = bids t -> asks s = asks t ->
  ask_id s = ask_id t -> ask_price s = ask_price t ->
  bid_id s = bid_id t -> bid_price s = bid_price t ->
  position s = position t ->
  lastEtfBids s = lastEtfBids t -> lastEtfAsks s = lastEtfAsks t ->
  lastFutureBids s = lastFutureBids t -> lastFutureAsks s = lastFutureAsks t ->
  s = t.
Proof. destruct s, t. cbn. intros. subst. reflexivity. Qed.

(** The fields after closing an id. *)
Lemma closed_fields i s :
  let s2 := closed i s in
  order_ids s2 = order_ids s /\ bids s2 = bids s ∖ {[i]} /\
  asks s2 = asks s ∖ {[i]} /\ position s2 = position s /\
  bid_id s2 = (if bool_decide (i = bid_id s) then 0 else bid_id s) /\
  ask_id s2 = (if bool_decide (i = bid_id s) then ask_id s
               else if bool_decide (i = ask_id s) then 0 else ask_id s).
Proof. unfold closed. repeat case_bool_decide; cbn; tauto. Qed.

Lemma closed_other_fields i s :
  let s2 := closed i s in
  ask_price s2 = ask_price s /\ bid_price s2 = bid_price s /\
  lastEtfBids s2 = lastEtfBids s /\ lastEtfAsks s2 = lastEtfAsks s /\
  lastFutureBids s2 = lastFutureBids s /\ lastFutureAsks s2 = lastFutureAsks s.
Proof. unfold closed. repeat case_bool_decide; cbn; tauto. Qed.


End Ledger.

Section Runs.

Lemma reachable_run es s : reachable s -> reachable (run es s).
Proof.
  revert s. induction es as [|e es IH]; intros s Hs; [exact Hs|].
  cbn [run fold_left]. apply IH. constructor. exact Hs.
Qed.

(** What every handler does to the object, as a function of the event. *)
Lemma final_handle e s :
  final (handle e s) =
  match e with
  | ErrorMessage i m =>
      if decodes m
         && (bool_decide (i ≠ 0)
             && (bool_decide (i ∈ bids s) || bool_decide (i ∈ asks s)))
      then closed i s else s
  | HedgeFilled _ _ _ => s
  | OrderBookUpdate i n ap av bp bv =>
      let s1 := stored i ap av bp bv s in
      match result (get_max_possible_trade s1) with
      | inl _ => s1
      | inr (etf_price, volume, side, _) =>
          if bool_decide (etf_price ≠ 0) && bool_decide (volume ≠ 0)
          then placed side etf_price s1 else s1
      end
  | OrderFilled i _ v =>
      if bool_decide (i ∈ bids s) then set_position (position s + v) s
      else if bool_decide (i ∈ asks s) then set_position (position s - v) s
      else s
  | OrderStatus i _ r _ => if bool_decide (r = 0) then closed i s else s
  | TradeTicks _ _ _ _ _ _ => s
  end.
Proof.
  destruct e; cbn [handle].
  - rewrite on_error_message_outcome. reflexivity.
  - reflexivity.
  - rewrite on_order_book_update_message_cases. cbv zeta.
    destruct (result _) as [?|[[[? ?] ?] ?]]; [reflexivity|].
    destruct (_ && _); reflexivity.
  - rewrite on_order_filled_message_outcome. reflexivity.
  - rewrite on_order_status_message_outcome. reflexivity.
  - reflexivity.
Qed.

Lemma final_on_order_book_update_message i n ap av bp bv s :
  final (on_order_book_update_message i n ap av bp bv s) =
  let s1 := stored i ap av bp bv s in
  match result (get_max_possible_trade s1) with
  | inl _ => s1
  | inr (etf_price, volume, side, _) =>
      if bool_decide (etf_price ≠ 0) && bool_decide (volume ≠ 0)
      then placed side etf_price s1 else s1
  end.
Proof. exact (final_handle (OrderBookUpdate i n ap av bp bv) s). Qed.

(** The fields other than the ladders, through the three state changes. *)
Lemma stored_fields i ap av bp bv s :
  let s1 := stored i ap av bp bv s in
  order_ids s1 = order_ids s /\ bids s1 = bids s /\ asks s1 = asks s /\
  ask_id s1 = ask_id s /\ ask_price s1 = ask_price s /\
  bid_id s1 = bid_id s /\ bid_price s1 = bid_price s /\
  position s1 = position s.
Proof. unfold stored. case_bool_decide; cbn; tauto. Qed.

Lemma placed_fields side p s :
  let s2 := placed side p s in
  order_ids s2 = order_ids s + 2 /\ bids s2 = bids s /\ asks s2 = asks s /\
  position s2 = position s /\
  match side with
  | ASK => ask_id s2 = order_ids s /\ bid_id s2 = bid_id s
  | BID => bid_id s2 = order_ids s /\ ask_id s2 = ask_id s
  end.
Proof. destruct side; cbn; repeat split; lia. Qed.

(** No handler inserts into a working set, in any state. *)
Lemma handle_working_sets e s :
  bids (final (handle e s)) ⊆ bids s /\ asks (final (handle e s)) ⊆ asks s.
Proof.
  rewrite final_handle. destruct e.
  - destruct (_ && _); [|done].
    destruct (closed_fields client_order_id s) as (_ & -> & -> & _). set_solver.
  - done.
  - cbv zeta.
    destruct (stored_fields instrument ask_prices ask_volumes bid_prices
                bid_volumes s) as (_ & Hb & Ha & _).
    destruct (result _) as [?|[[[p v] side] ?]]; [rewrite Hb, Ha; done|].
    destruct (_ && _); [|rewrite Hb, Ha; done].
    destruct (placed_fields side p (stored instrument ask_prices ask_volumes
                bid_prices bid_volumes s)) as (_ & -> & -> & _).
    rewrite Hb, Ha. done.
  - repeat case_bool_decide; done.
  - case_bool_decide; [|done].
    destruct (closed_fields client_order_id s) as (_ & -> & -> & _). set_solver.
  - done.
Qed.

Lemma Inv_init : Inv init.
Proof. unfold Inv. cbn. repeat split; lia. Qed.

Lemma Inv_stored i ap av bp bv s : Inv s -> Inv (stored i ap av bp bv s).
Proof.
  unfold Inv.
  destruct (stored_fields i ap av bp bv s)
    as (-> & -> & -> & -> & _ & -> & _ & ->). tauto.
Qed.

Lemma Inv_placed side p s : Inv s -> Inv (placed side p s).
Proof.
  unfold Inv. intros (Hn & Hb & Ha & Hne & Hbs & Has & Hp).
  destruct (placed_fields side p s) as (-> & -> & -> & -> & Hside).
  destruct side; destruct Hside as [-> ->]; repeat split; try assumption; lia.
Qed.

Lemma Inv_closed i s : Inv s -> Inv (closed i s).
Proof.
  unfold Inv. intros (Hn & Hb & Ha & Hne & Hbs & Has & Hp).
  destruct (closed_fields i s) as (-> & -> & -> & -> & -> & ->).
  rewrite Hbs, Has.
  repeat case_bool_decide; repeat split; try assumption; try lia; set_solver.
Qed.

Lemma Inv_handle e s : Inv s -> Inv (final (handle e s)).
Proof.
  intros HI. rewrite final_handle. destruct e.
  - destruct (_ && _); [apply Inv_closed|]; exact HI.
  - exact HI.
  - cbv zeta. destruct (result _) as [?|[[[p v] side] ?]];
      [apply Inv_stored; exact HI|].
    destruct (_ && _); [apply Inv_placed|]; apply Inv_stored; exact HI.
  - destruct HI as (Hn & Hb & Ha & Hne & Hbs & Has & Hp).
    rewrite Hbs, Has.
    rewrite !bool_decide_eq_false_2 by set_solver.
    unfold Inv. rewrite Hbs, Has. tauto.
  - case_bool_decide; [apply Inv_closed|]; exact HI.
  - exact HI.
Qed.

Lemma reachable_Inv s : reachable s -> Inv s.
Proof.
  induction 1 as [|s e _ IH]; [apply Inv_init | apply Inv_handle, IH].
Qed.

(** ** The ledger claims *)

(** In any state, a second status message with remaining volume 0 for an
    id changes neither the position nor the working sets. *)
Lemma status_zero_twice_position_sets s i f1 c1 f2 c2 :
  let once := final (on_order_status_message i f1 0 c1 s) in
  let twice := final (on_order_status_message i f2 0 c2 once) in
  position twice = position once /\ bids twice = bids once /\
  asks twice = asks once.
Proof.
  intros once twice. subst once twice.
  rewrite !on_order_status_message_outcome. cbn [final].
  rewrite !bool_decide_eq_true_2 by reflexivity.
  destruct (closed_fields i (closed i s)) as (_ & -> & -> & -> & _).
  repeat split; set_solver.
Qed.



(** C9: a fill for an id that is in neither working set returns normally,
    sends nothing and leaves the object, and so the position, as it was. *)
Theorem fill_unknown_id_ignored s i p v :
  i ∉ bids s -> i ∉ asks s ->
  on_order_filled_message i p v s = mkOutcome (inr tt) s [].
Proof.
  intros Hb Ha. rewrite on_order_filled_message_outcome.
  rewrite !bool_decide_eq_false_2 by assumption. reflexivity.
Qed.

Lemma fill_unknown_id_ignored_witness :
  result (on_order_filled_message 999 100 10 init) = inr tt /\
  position (final (on_order_filled_message 999 100 10 init)) = position init.
Proof.
  rewrite (fill_unknown_id_ignored init 999 100 10);
    [split; reflexivity | | ]; cbn; apply not_elem_of_empty.
Defined.

(** C8: the position is left as it was by the book-update, status, error,
    hedge-fill and trade-ticks handlers; the fill handler leaves both slots
    as they were; the hedge-fill and trade-ticks handlers too; and in a
    reachable state the book-update handler never sets a slot to 0 (it
    writes a fresh id, at least 1), so that only the status and error
    handlers clear a slot. *)
Theorem position_and_slots_frame s :
  (forall i n ap av bp bv,
     position (final (on_order_book_update_message i n ap av bp bv s)) = position s) /\
  (forall i f r c, position (final (on_order_status_message i f r c s)) = position s) /\
  (forall i m, position (final (on_error_message i m s)) = position s) /\
  (forall i p v, position (final (on_hedge_filled_message i p v s)) = position s) /\
  (forall i n ap av bp bv,
     position (final (on_trade_ticks_message i n ap av bp bv s)) = position s) /\
  (forall i p v,
     bid_id (final (on_order_filled_message i p v s)) = bid_id s /\
     ask_id (final (on_order_filled_message i p v s)) = ask_id s) /\
  (forall i p v,
     bid_id (final (on_hedge_filled_message i p v s)) = bid_id s /\
     ask_id (final (on_hedge_filled_message i p v s)) = ask_id s) /\
  (forall i n ap av bp bv,
     bid_id (final (on_trade_ticks_message i n ap av bp bv s)) = bid_id s /\
     ask_id (final (on_trade_ticks_message i n ap av bp bv s)) = ask_id s) /\
  (reachable s ->
   forall i n ap av bp bv,
     let s' := final (on_order_book_update_message i n ap av bp bv s) in
     (bid_id s <> 0 -> bid_id s' <> 0) /\ (ask_id s <> 0 -> ask_id s' <> 0)).
Proof.
  repeat apply conj.
  - intros. rewrite final_on_order_book_update_message. cbv zeta.
    destruct (stored_fields i ap av bp bv s) as (_ & _ & _ & _ & _ & _ & _ & Hp).
    destruct (result _) as [?|[[[pr v] side] ?]]; [exact Hp|].
    destruct (_ && _); [|exact Hp].
    destruct (placed_fields side pr (stored i ap av bp bv s))
      as (_ & _ & _ & -> & _). exact Hp.
  - intros. rewrite on_order_status_message_outcome. cbn [final].
    case_bool_decide; [|reflexivity].
    destruct (closed_fields i s) as (_ & _ & _ & -> & _). reflexivity.
  - intros. rewrite on_error_message_outcome. cbn [final].
    destruct (_ && _); [|reflexivity].
    destruct (closed_fields i s) as (_ & _ & _ & -> & _). reflexivity.
  - reflexivity.
  - reflexivity.
  - intros. rewrite on_order_filled_message_outcome. cbn [final].
    repeat case_bool_decide; split; reflexivity.
  - split; reflexivity.
  - split; reflexivity.
  - intros Hr i n ap av bp bv s'. subst s'.
    rewrite final_on_order_book_update_message. cbv zeta.
    destruct (reachable_Inv s Hr) as (Hn & _).
    destruct (stored_fields i ap av bp bv s)
      as (Ho & _ & _ & Ha & _ & Hb & _).
    destruct (result _) as [?|[[[pr v] side] ?]]; [rewrite Ha, Hb; tauto|].
    destruct (_ && _); [|rewrite Ha, Hb; tauto].
    destruct (placed_fields side pr (stored i ap av bp bv s))
      as (_ & _ & _ & _ & Hside).
    destruct side; destruct Hside as [-> ->]; rewrite ?Ho, ?Ha, ?Hb;
      split; intros; solve [assumption | lia].
Qed.

Lemma position_and_slots_frame_witness :
  position (final (on_order_book_update_message Instrument_FUTURE 2
                     [201] [7] [200] [3] bid_order_sent)) =
    position bid_order_sent /\
  bid_id bid_order_sent = 1 /\
  bid_id (final (on_order_book_update_message Instrument_FUTURE 2
                   [201] [7] [200] [3] bid_order_sent)) <> 0.
Proof.
  destruct (position_and_slots_frame bid_order_sent)
    as (Hpos & _ & _ & _ & _ & _ & _ & _ & Hslots).
  split; [apply Hpos|]. split; [reflexivity|].
  apply (Hslots (reachable_run future_then_etf init reachable_init)
           Instrument_FUTURE 2 [201] [7] [200] [3]).
  vm_compute. discriminate.
Defined.

(** C10: no handler inserts an id into a working set, so in every reachable
    state both working sets are empty and the position is 0. *)
Theorem working_sets_always_empty s :
  reachable s ->
  (forall e, bids (final (handle e s)) ⊆ bids s /\
             asks (final (handle e s)) ⊆ asks s) /\
  bids s = ∅ /\ asks s = ∅ /\ position s = 0.
Proof.
  intros Hr. split; [intros e; apply handle_working_sets|].
  destruct (reachable_Inv s Hr) as (_ & _ & _ & _ & Hb & Ha & Hp). tauto.
Qed.

Lemma working_sets_always_empty_witness :
  bids (final (on_order_filled_message 1 100 3 bid_order_sent)) = ∅ /\
  asks (final (on_order_filled_message 1 100 3 bid_order_sent)) = ∅ /\
  position (final (on_order_filled_message 1 100 3 bid_order_sent)) = 0.
Proof.
  apply (working_sets_always_empty
           (final (handle (OrderFilled 1 100 3) bid_order_sent))).
  apply reachable_step.
  apply (reachable_run future_then_etf init reachable_init).
Defined.

(** C1, evaluated on the code: after the book update that sends the BID
    order with the fresh id 1 (and its hedge with id 2), the id 1 is the
    resting bid id but is not in the BID working set, and the fill of
    volume 3 for it leaves the position at 0. *)
Theorem bid_order_id_not_recorded :
  final (on_order_book_update_message Instrument_ETF 1 [100] [5] [99] [3]
           future_stored) = bid_order_sent /\
  sent (on_order_book_update_message Instrument_ETF 1 [100] [5] [99] [3]
          future_stored) =
    [send_insert_order 1 BID 100 3 FILL_OR_KILL; send_hedge_order 2 ASK 200 3] /\
  bid_id bid_order_sent = 1 /\ (1 ∉ bids bid_order_sent) /\
  position bid_order_sent = 0 /\
  position (final (on_order_filled_message 1 100 3 bid_order_sent)) = 0.
Proof.
  assert (Hr : reachable bid_order_sent)
    by apply (reachable_run future_then_etf init reachable_init).
  destruct (reachable_Inv _ Hr) as (_ & _ & _ & _ & Hb & Ha & Hp).
  split.
  { unfold bid_order_sent, future_stored, future_then_etf, run.
    cbn [fold_left handle]. reflexivity. }
  split; [reflexivity|]. split; [reflexivity|].
  split; [rewrite Hb; apply not_elem_of_empty|]. split; [exact Hp|].
  rewrite on_order_filled_message_outcome, Hb, Ha. cbn [final].
  rewrite !bool_decide_eq_false_2 by apply not_elem_of_empty. exact Hp.
Qed.

End Runs.

(** * Further properties of the code *)

Section ScannerFacts.

(** The last element of an append whose second part is not empty. *)
Lemma last_app_nonempty {A} (l k : list A) d :
  k <> [] -> List.last (l ++ k) d = List.last k d.
Proof.
  intros Hk. induction l as [|x l IH]; [reflexivity|].
  cbn [app]. destruct (l ++ k) eqn:E.
  - destruct l; [cbn in E; contradiction | discriminate E].
  - rewrite <- IH. reflexivity.
Qed.

(** The two price projections at the last element of a non-empty list. *)
Lemma last_map_pair {A} (f g : A -> Z) (qs : list A) d d' :
  qs <> [] ->
  exists q, In q qs /\ List.last (List.map f qs) d = f q /\
            List.last (List.map g qs) d' = g q.
Proof.
  induction qs as [|q qs IH]; [contradiction|]. intros _.
  destruct qs as [|q' qs].
  - exists q. cbn. auto.
  - destruct IH as (r & Hr & Hf & Hg); [discriminate|].
    exists r. split; [right; exact Hr|]. split; [exact Hf | exact Hg].
Qed.

Lemma cross_product_app_single outer x inner :
  cross_product (outer ++ [x]) inner =
  cross_product outer inner ++ List.map (pair x) inner.
Proof.
  unfold cross_product. induction outer as [|a outer IH].
  - cbn. rewrite app_nil_r. reflexivity.
  - cbn [app list_prod]. rewrite IH, app_assoc. reflexivity.
Qed.

Lemma in_qualifying_pairs q outer inner :
  In q (qualifying_pairs outer inner) <->
  In q.1 outer /\ In q.2 inner /\ q.1.1 < q.2.1.
Proof.
  unfold qualifying_pairs, cross_product, qualifies.
  rewrite filter_In. destruct q as [a b]. rewrite in_prod_iff. cbn [fst snd].
  rewrite Z.ltb_lt. tauto.
Qed.

(** With the gate open the first pair qualifies. *)
Lemma qualifying_pairs_nonempty a0 ra b0 rb :
  a0.1 < b0.1 -> qualifying_pairs (a0 :: ra) (b0 :: rb) <> [].
Proof.
  intros Hlt Hnil.
  assert (Hin : In (a0, b0) (qualifying_pairs (a0 :: ra) (b0 :: rb))).
  { apply in_qualifying_pairs. cbn. auto. }
  rewrite Hnil in Hin. destruct Hin.
Qed.

(** The scanner, branch by branch. *)
Lemma get_max_possible_trade_cases s :
  match lastEtfAsks s, lastFutureBids s with
  | a0 :: _, b0 :: _ =>
      if a0.1 <? b0.1 then
        let qs := qualifying_pairs (lastEtfAsks s) (lastFutureBids s) in
        result (get_max_possible_trade s) =
        inr (List.last (List.map (fun p => p.1.1) qs) 0, accumulated_volume qs,
             BID, List.last (List.map (fun p => p.2.1) qs) 0)
      else
        match lastEtfBids s, lastFutureAsks s with
        | b0' :: _, a0' :: _ =>
            if a0'.1 <? b0'.1 then
              let qs := qualifying_pairs (lastFutureAsks s) (lastEtfBids s) in
              result (get_max_possible_trade s) =
              inr (List.last (List.map (fun p => p.2.1) qs) 0,
                   accumulated_volume qs, ASK,
                   List.last (List.map (fun p => p.1.1) qs) 0)
            else result (get_max_possible_trade s) = inr (0, 0, BID, 0)
        | _, _ => result (get_max_possible_trade s) = inl IndexError
        end
  | _, _ => result (get_max_possible_trade s) = inl IndexError
  end.
Proof.
  destruct (lastEtfAsks s) as [|a0 ra] eqn:Ha.
  { unfold get_max_possible_trade, index0. run_method. rewrite Ha. reflexivity. }
  destruct (lastFutureBids s) as [|b0 rb] eqn:Hb.
  { unfold get_max_possible_trade, index0. run_method. rewrite Ha, Hb.
    reflexivity. }
  destruct (Z.ltb_spec a0.1 b0.1) as [Hlt|Hge].
  { rewrite <- Ha, <- Hb. apply (get_max_possible_trade_buy s a0 ra b0 rb Ha Hb Hlt). }
  destruct (lastEtfBids s) as [|b0' rb'] eqn:Hb'.
  { unfold get_max_possible_trade, index0. run_method. rewrite Ha, Hb.
    run_method. destruct (Z.ltb_spec a0.1 b0.1); [lia|]. rewrite Hb'.
    reflexivity. }
  destruct (lastFutureAsks s) as [|a0' ra'] eqn:Ha'.
  { unfold get_max_possible_trade, index0. run_method. rewrite Ha, Hb.
    run_method. destruct (Z.ltb_spec a0.1 b0.1); [lia|]. rewrite Hb', Ha'.
    reflexivity. }
  destruct (Z.ltb_spec a0'.1 b0'.1) as [Hlt'|Hge'].
  { rewrite <- Ha', <- Hb'.
    apply (get_max_possible_trade_sell s a0 ra b0 rb b0' rb' a0' ra'
             Ha Hb Hb' Ha' Hge Hlt'). }
  unfold get_max_possible_trade, index0. run_method. rewrite Ha, Hb.
  run_method. destruct (Z.ltb_spec a0.1 b0.1); [lia|]. rewrite Hb', Ha'.
  run_method. destruct (Z.gtb_spec b0'.1 a0'.1); [lia|]. reflexivity.
Qed.

End ScannerFacts.

Section ScannerResults.

(** The three forms of what the scanner returns. *)
Lemma get_max_possible_trade_result s p v side fp :
  result (get_max_possible_trade s) = inr (p, v, side, fp) ->
  (side = BID /\ p = 0 /\ v = 0 /\ fp = 0) \/
  (side = BID /\ exists ask bid,
     In ask (lastEtfAsks s) /\ In bid (lastFutureBids s) /\
     p = ask.1 /\ fp = bid.1 /\ p < fp) \/
  (side = ASK /\ exists ask bid,
     In ask (lastFutureAsks s) /\ In bid (lastEtfBids s) /\
     fp = ask.1 /\ p = bid.1 /\ fp < p).
Proof.
  intros Hres. generalize (get_max_possible_trade_cases s). rewrite Hres.
  destruct (lastEtfAsks s) as [|a0 ra]; [discriminate|].
  destruct (lastFutureBids s) as [|b0 rb]; [discriminate|].
  destruct (Z.ltb_spec a0.1 b0.1) as [Hlt|Hge].
  - cbv zeta. intros Hc. right. left.
    destruct (last_map_pair (fun q : Level * Level => q.1.1)
                (fun q : Level * Level => q.2.1)
                (qualifying_pairs (a0 :: ra) (b0 :: rb)) 0 0
                (qualifying_pairs_nonempty a0 ra b0 rb Hlt))
      as (q & Hq & Hf & Hg).
    injection Hc as Hp _ -> Hfp.
    assert (Hp' : p = q.1.1) by (etransitivity; [exact Hp | exact Hf]).
    assert (Hfp' : fp = q.2.1) by (etransitivity; [exact Hfp | exact Hg]).
    clear Hp Hfp. subst p fp.
    apply in_qualifying_pairs in Hq. destruct Hq as (H1 & H2 & H3).
    split; [reflexivity|]. exists q.1, q.2.
      exact (conj H1 (conj H2 (conj eq_refl (conj eq_refl H3)))).
  - destruct (lastEtfBids s) as [|b0' rb']; [discriminate|].
    destruct (lastFutureAsks s) as [|a0' ra']; [discriminate|].
    destruct (Z.ltb_spec a0'.1 b0'.1) as [Hlt'|Hge'].
    + cbv zeta. intros Hc. right. right.
      destruct (last_map_pair (fun q : Level * Level => q.2.1)
                  (fun q : Level * Level => q.1.1)
                  (qualifying_pairs (a0' :: ra') (b0' :: rb')) 0 0
                  (qualifying_pairs_nonempty a0' ra' b0' rb' Hlt'))
        as (q & Hq & Hf & Hg).
      injection Hc as Hp _ -> Hfp.
      assert (Hp' : p = q.2.1) by (etransitivity; [exact Hp | exact Hf]).
      assert (Hfp' : fp = q.1.1) by (etransitivity; [exact Hfp | exact Hg]).
      clear Hp Hfp. subst p fp.
      apply in_qualifying_pairs in Hq. destruct Hq as (H1 & H2 & H3).
      split; [reflexivity|]. exists q.1, q.2.
      exact (conj H1 (conj H2 (conj eq_refl (conj eq_refl H3)))).
    + intros Hc. injection Hc as -> -> -> ->. left. auto.
Qed.

(** X3: whatever the scanner returns is either the "no opportunity" tuple
    (0, 0, BID, 0), or a BID result whose two prices are those of an ETF
    ask and a future bid of the stored ladders, the ask strictly below the
    bid, or an ASK result whose two prices are those of an ETF bid and a
    future ask, the ask strictly below the bid. *)
Theorem scanner_result_shape s p v side fp :
  result (get_max_possible_trade s) = inr (p, v, side, fp) ->
  (side = BID /\ p = 0 /\ v = 0 /\ fp = 0) \/
  (side = BID /\ exists ask bid,
     In ask (lastEtfAsks s) /\ In bid (lastFutureBids s) /\
     p = ask.1 /\ fp = bid.1 /\ p < fp) \/
  (side = ASK /\ exists ask bid,
     In ask (lastFutureAsks s) /\ In bid (lastEtfBids s) /\
     fp = ask.1 /\ p = bid.1 /\ fp < p).
Proof. exact (get_max_possible_trade_result s p v side fp). Qed.

Lemma scanner_result_shape_witness :
  (BID = BID /\ 101 = 0 /\ 14 = 0 /\ 150 = 0) \/
  (BID = BID /\ exists ask bid,
     In ask [(100, 5); (101, 5)] /\ In bid [(200, 3); (150, 4)] /\
     101 = ask.1 /\ 150 = bid.1 /\ 101 < 150) \/
  (BID = ASK /\ exists ask bid,
     In ask [(0, 0); (0, 0)] /\ In bid [(0, 0); (0, 0)] /\
     150 = ask.1 /\ 101 = bid.1 /\ 150 < 101).
Proof.
  apply (scanner_result_shape
           (set_lastEtfAsks [(100, 5); (101, 5)]
              (set_lastFutureBids [(200, 3); (150, 4)] init))
           101 14 BID 150).
  reflexivity.
Defined.

(** X4: the scanner raises [IndexError] exactly when the ETF ask ladder or
    the future bid ladder is empty, or when the first gate is closed and
    the ETF bid ladder or the future ask ladder is empty.  With the first
    gate open the other two ladders are not looked at. *)
Theorem scanner_raises_iff s :
  result (get_max_possible_trade s) = inl IndexError <->
  lastEtfAsks s = [] \/ lastFutureBids s = [] \/
  (gate_open (lastEtfAsks s) (lastFutureBids s) = false /\
   (lastEtfBids s = [] \/ lastFutureAsks s = [])).
Proof.
  generalize (get_max_possible_trade_cases s). unfold gate_open.
  destruct (lastEtfAsks s) as [|a0 ra]; [intros ->; tauto|].
  destruct (lastFutureBids s) as [|b0 rb]; [intros ->; tauto|].
  destruct (a0.1 <? b0.1).
  - cbv zeta. intros ->. split; [discriminate|].
    intros [H|[H|[H _]]]; discriminate H.
  - destruct (lastEtfBids s) as [|b0' rb']; [intros ->; tauto|].
    destruct (lastFutureAsks s) as [|a0' ra']; [intros ->; tauto|].
    destruct (a0'.1 <? b0'.1); cbv zeta; intros ->;
      (split; [discriminate|]);
      intros [H|[H|[_ [H|H]]]]; discriminate H.
Qed.

Lemma scanner_raises_iff_witness :
  result (get_max_possible_trade
            (set_lastEtfBids [] (set_lastFutureAsks [] bid_order_sent))) <>
    inl IndexError /\
  result (get_max_possible_trade (set_lastEtfBids [] init)) = inl IndexError.
Proof.
  split.
  - intros H.
    apply (proj1 (scanner_raises_iff
                    (set_lastEtfBids [] (set_lastFutureAsks [] bid_order_sent))))
      in H.
    vm_compute in H. destruct H as [H|[H|[H _]]]; discriminate H.
  - apply (proj2 (scanner_raises_iff (set_lastEtfBids [] init))).
    right. right. split; [reflexivity | left; reflexivity].
Defined.

Lemma accumulated_volume_nonneg_list ps :
  (forall q, In q ps -> 0 <= q.1.2 /\ 0 <= q.2.2) ->
  0 <= accumulated_volume ps.
Proof.
  induction ps as [|q qs IH]; intros H; [reflexivity|].
  cbn [accumulated_volume fold_right].
  assert (0 <= q.1.2 /\ 0 <= q.2.2) by (apply H; left; reflexivity).
  assert (0 <= accumulated_volume qs)
    by (apply IH; intros; apply H; right; assumption).
  unfold accumulated_volume in *. lia.
Qed.

Lemma accumulated_volume_nonneg outer inner :
  volumes_nonneg outer -> volumes_nonneg inner ->
  0 <= accumulated_volume (qualifying_pairs outer inner).
Proof.
  intros Ho Hi. apply accumulated_volume_nonneg_list.
  intros q Hq. apply in_qualifying_pairs in Hq. destruct Hq as (H1 & H2 & _).
  unfold volumes_nonneg in Ho, Hi. rewrite List.Forall_forall in Ho, Hi.
  split; [apply (Ho _ H1) | apply (Hi _ H2)].
Qed.

(** X5: when no stored level has a negative volume, the volume the scanner
    returns is not negative. *)
Theorem scanner_volume_nonneg s p v side fp :
  volumes_nonneg (lastEtfAsks s) -> volumes_nonneg (lastFutureBids s) ->
  volumes_nonneg (lastEtfBids s) -> volumes_nonneg (lastFutureAsks s) ->
  result (get_max_possible_trade s) = inr (p, v, side, fp) ->
  0 <= v.
Proof.
  intros H1 H2 H3 H4 Hres.
  pose proof (accumulated_volume_nonneg _ _ H1 H2) as Hbuy.
  pose proof (accumulated_volume_nonneg _ _ H4 H3) as Hsell.
  revert Hbuy Hsell.
  generalize (get_max_possible_trade_cases s). rewrite Hres.
  destruct (lastEtfAsks s) as [|a0 ra]; [discriminate|].
  destruct (lastFutureBids s) as [|b0 rb]; [discriminate|].
  destruct (a0.1 <? b0.1).
  - cbv zeta. intros Hc Hbuy _. injection Hc as _ -> _ _. exact Hbuy.
  - destruct (lastEtfBids s) as [|b0' rb']; [discriminate|].
    destruct (lastFutureAsks s) as [|a0' ra']; [discriminate|].
    destruct (a0'.1 <? b0'.1); cbv zeta; intros Hc _ Hsell.
    + injection Hc as _ -> _ _. exact Hsell.
    + injection Hc as _ -> _ _. lia.
Qed.

Lemma scanner_volume_nonneg_witness : 0 <= 14.
Proof.
  apply (scanner_volume_nonneg
           (set_lastEtfAsks [(100, 5); (101, 5)]
              (set_lastFutureBids [(200, 3); (150, 4)] init))
           101 14 BID 150);
    try reflexivity; repeat constructor; cbn; lia.
Defined.

End ScannerResults.

Section ScannerBranches.

(** X1: when the first gate is open (the best ETF ask is below the best
    future bid), the scanner returns side BID, the sum of
    min(ask volume, bid volume) over all the qualifying pairs of the cross
    product of the ETF asks with the future bids, and the two prices of the
    last qualifying pair; the ETF bids and the future asks play no part. *)
Theorem scanner_buy_branch s :
  gate_open (lastEtfAsks s) (lastFutureBids s) = true ->
  let qs := qualifying_pairs (lastEtfAsks s) (lastFutureBids s) in
  result (get_max_possible_trade s) =
  inr (List.last (List.map (fun p => p.1.1) qs) 0, accumulated_volume qs, BID,
       List.last (List.map (fun p => p.2.1) qs) 0).
Proof.
  generalize (get_max_possible_trade_cases s). unfold gate_open.
  destruct (lastEtfAsks s) as [|a0 ra]; [discriminate|].
  destruct (lastFutureBids s) as [|b0 rb]; [discriminate|].
  destruct (a0.1 <? b0.1); [|discriminate]. intros Hc _. exact Hc.
Qed.

Lemma scanner_buy_branch_witness :
  result (get_max_possible_trade
            (set_lastEtfAsks [(100, 5); (101, 5); (300, 9)]
               (set_lastFutureBids [(200, 3); (150, 4); (10, 8)] init))) =
  inr (101, 14, BID, 150).
Proof.
  exact (scanner_buy_branch
           (set_lastEtfAsks [(100, 5); (101, 5); (300, 9)]
              (set_lastFutureBids [(200, 3); (150, 4); (10, 8)] init))
           eq_refl).
Defined.

(** X2: when the first gate is closed on two non-empty ladders and the
    second is open (the best future ask is below the best ETF bid), the
    scanner returns side ASK, the volume summed over the qualifying pairs
    of the future asks with the ETF bids, the bid price of the last
    qualifying pair as ETF price and its ask price as future price. *)
Theorem scanner_sell_branch s :
  lastEtfAsks s <> [] -> lastFutureBids s <> [] ->
  gate_open (lastEtfAsks s) (lastFutureBids s) = false ->
  gate_open (lastFutureAsks s) (lastEtfBids s) = true ->
  let qs := qualifying_pairs (lastFutureAsks s) (lastEtfBids s) in
  result (get_max_possible_trade s) =
  inr (List.last (List.map (fun p => p.2.1) qs) 0, accumulated_volume qs, ASK,
       List.last (List.map (fun p => p.1.1) qs) 0).
Proof.
  generalize (get_max_possible_trade_cases s). unfold gate_open.
  destruct (lastEtfAsks s) as [|a0 ra]; [contradiction|].
  destruct (lastFutureBids s) as [|b0 rb]; [contradiction|].
  destruct (a0.1 <? b0.1); [discriminate|].
  destruct (lastFutureAsks s) as [|a0' ra']; [discriminate|].
  destruct (lastEtfBids s) as [|b0' rb']; [discriminate|].
  destruct (a0'.1 <? b0'.1); [|discriminate]. intros Hc _ _ _ _. exact Hc.
Qed.

Lemma scanner_sell_branch_witness :
  result (get_max_possible_trade
            (set_lastEtfAsks [(210, 5)]
               (set_lastFutureBids [(190, 3)]
                  (set_lastEtfBids [(205, 6); (200, 2)]
                     (set_lastFutureAsks [(195, 4); (202, 1)] init))))) =
  inr (205, 7, ASK, 202).
Proof.
  exact (scanner_sell_branch
           (set_lastEtfAsks [(210, 5)]
              (set_lastFutureBids [(190, 3)]
                 (set_lastEtfBids [(205, 6); (200, 2)]
                    (set_lastFutureAsks [(195, 4); (202, 1)] init))))
           ltac:(discriminate) ltac:(discriminate) eq_refl eq_refl).
Defined.

(** When the outer ladder ends with a level that qualifies against some
    inner level, the last qualifying pair has that level as its ask. *)
Lemma last_qualifying_padded outer x inner d d' :
  (exists b, In b inner /\ x.1 < b.1) ->
  exists bid, In bid inner /\ x.1 < bid.1 /\
    List.last (List.map (fun p : Level * Level => p.1.1)
                 (qualifying_pairs (outer ++ [x]) inner)) d = x.1 /\
    List.last (List.map (fun p : Level * Level => p.2.1)
                 (qualifying_pairs (outer ++ [x]) inner)) d' = bid.1.
Proof.
  intros (b & Hb & Hlt). unfold qualifying_pairs.
  rewrite cross_product_app_single, List.filter_app, !List.map_app.
  match goal with
  | |- context [_ ++ List.map _ ?B0] => remember B0 as B eqn:EB
  end.
  assert (HB : B <> []).
  { intros Hnil. assert (Hin : In (x, b) B).
    { rewrite EB. apply filter_In. split; [apply List.in_map; exact Hb|].
      unfold qualifies. cbn. apply Z.ltb_lt. exact Hlt. }
    rewrite Hnil in Hin. destruct Hin. }
  assert (Hm : forall h : Level * Level -> Z, List.map h B <> []).
  { intros h Hnil. apply HB. destruct B; [reflexivity | discriminate Hnil]. }
  rewrite !last_app_nonempty by apply Hm.
  destruct (last_map_pair (fun p : Level * Level => p.1.1)
              (fun p : Level * Level => p.2.1) B d d' HB)
    as (q & Hq & Hf & Hg).
  rewrite EB in Hq. apply filter_In in Hq. destruct Hq as [Hq Hqual].
  apply List.in_map_iff in Hq. destruct Hq as (bid & <- & Hbid).
  unfold qualifies in Hqual. cbn in Hqual. apply Z.ltb_lt in Hqual.
  exists bid. cbn in Hf, Hg. auto.
Qed.

(** X6: when the stored ETF ask ladder ends with a level of price 0 (the
    padding of a book with fewer levels), the best future bid is positive
    and the first gate is open, the scanner reports the ETF price 0,
    whatever the other levels are. *)
Theorem padded_etf_asks_report_price_zero s l w b0 rb :
  lastEtfAsks s = l ++ [(0, w)] -> lastFutureBids s = b0 :: rb -> 0 < b0.1 ->
  gate_open (lastEtfAsks s) (lastFutureBids s) = true ->
  exists v fp, result (get_max_possible_trade s) = inr (0, v, BID, fp).
Proof.
  intros Ha Hb Hpos Hgate.
  pose proof (get_max_possible_trade_cases s) as Hc.
  unfold gate_open in Hgate.
  destruct (lastEtfAsks s) as [|a0 ra] eqn:Ha'; [discriminate|].
  rewrite Hb in Hc, Hgate. rewrite Hgate in Hc. cbv zeta in Hc.
  destruct (last_qualifying_padded l (0, w) (b0 :: rb) 0 0)
    as (bid & _ & _ & Hf & _).
  { exists b0. split; [left; reflexivity | exact Hpos]. }
  rewrite <- Ha in Hf.
  match type of Hc with
  | _ = inr (?e, ?v, _, ?fp) =>
      exists v, fp; rewrite Hc;
      assert (He : e = 0) by exact Hf; rewrite He; reflexivity
  end.
Qed.

Lemma padded_etf_asks_report_price_zero_witness :
  exists v fp,
    result (get_max_possible_trade
              (set_lastEtfAsks [(100, 5); (101, 2); (0, 0)]
                 (set_lastFutureBids [(200, 3); (150, 4); (0, 0)] init))) =
    inr (0, v, BID, fp).
Proof.
  apply (padded_etf_asks_report_price_zero
           (set_lastEtfAsks [(100, 5); (101, 2); (0, 0)]
              (set_lastFutureBids [(200, 3); (150, 4); (0, 0)] init))
           [(100, 5); (101, 2)] 0 (200, 3) [(150, 4); (0, 0)]);
    solve [reflexivity | cbn; lia].
Defined.

(** X7: in the other branch, when the stored future ask ladder ends with a
    level of price 0, the best ETF bid is positive and the second gate is
    the one that opens, the scanner reports the future price 0 with a
    positive ETF price. *)
Theorem padded_future_asks_report_hedge_zero s a0 ra b0 rb l w b0' rb' :
  lastEtfAsks s = a0 :: ra -> lastFutureBids s = b0 :: rb -> b0.1 <= a0.1 ->
  lastFutureAsks s = l ++ [(0, w)] -> lastEtfBids s = b0' :: rb' ->
  0 < b0'.1 ->
  gate_open (lastFutureAsks s) (lastEtfBids s) = true ->
  exists p v, result (get_max_possible_trade s) = inr (p, v, ASK, 0) /\ 0 < p.
Proof.
  intros Ha Hb Hge Ha' Hb' Hpos Hgate.
  pose proof (get_max_possible_trade_cases s) as Hc.
  unfold gate_open in Hgate. rewrite Ha, Hb in Hc.
  destruct (Z.ltb_spec a0.1 b0.1); [lia|].
  rewrite Hb' in Hc, Hgate.
  destruct (lastFutureAsks s) as [|a0' ra'] eqn:Ha''; [discriminate|].
  rewrite Hgate in Hc. cbv zeta in Hc.
  destruct (last_qualifying_padded l (0, w) (b0' :: rb') 0 0)
    as (bid & _ & Hbid & Hf & Hg).
  { exists b0'. split; [left; reflexivity | exact Hpos]. }
  rewrite <- Ha' in Hf, Hg. cbn [fst] in Hbid.
  match type of Hc with
  | _ = inr (?e, ?v, _, ?fp) =>
      exists e, v; rewrite Hc;
      assert (He : e = bid.1) by exact Hg;
      assert (Hfp : fp = 0) by exact Hf;
      rewrite Hfp; split; [reflexivity | rewrite He; exact Hbid]
  end.
Qed.

Lemma padded_future_asks_report_hedge_zero_witness :
  exists p v,
    result (get_max_possible_trade
              (set_lastEtfAsks [(210, 5); (0, 0)]
                 (set_lastFutureBids [(190, 3); (0, 0)]
                    (set_lastEtfBids [(200, 3); (0, 0)]
                       (set_lastFutureAsks [(100, 5); (0, 0)] init))))) =
    inr (p, v, ASK, 0) /\ 0 < p.
Proof.
  apply (padded_future_asks_report_hedge_zero
           (set_lastEtfAsks [(210, 5); (0, 0)]
              (set_lastFutureBids [(190, 3); (0, 0)]
                 (set_lastEtfBids [(200, 3); (0, 0)]
                    (set_lastFutureAsks [(100, 5); (0, 0)] init))))
           (210, 5) [(0, 0)] (190, 3) [(0, 0)] [(100, 5)] 0 (200, 3) [(0, 0)]);
    solve [reflexivity | cbn; lia].
Defined.

End ScannerBranches.

Section ControllerFacts.

Lemma placed_prices side p s :
  match side with
  | ASK => ask_price (placed side p s) = p /\ bid_price (placed side p s) = bid_price s
  | BID => bid_price (placed side p s) = p /\ ask_price (placed side p s) = ask_price s
  end.
Proof. destruct side; split; reflexivity. Qed.

(** X8: when the scanner raises on the object with the new ladders (an
    empty ladder is indexed), the book-update handler raises the same
    [IndexError]: the new ladders stay stored, nothing else is changed and
    nothing is sent. *)
Theorem book_update_raises i n ap av bp bv s :
  result (get_max_possible_trade (final (store_ladders i ap av bp bv s))) =
    inl IndexError ->
  on_order_book_update_message i n ap av bp bv s =
  mkOutcome (inl IndexError) (final (store_ladders i ap av bp bv s)) [].
Proof.
  rewrite store_ladders_outcome. cbn [final]. intros Hr.
  rewrite on_order_book_update_message_cases. cbv zeta. rewrite Hr.
  reflexivity.
Qed.

Lemma book_update_raises_witness :
  on_order_book_update_message Instrument_ETF 1 [] [] [99] [3] init =
  mkOutcome (inl IndexError)
    (final (store_ladders Instrument_ETF [] [] [99] [3] init)) [].
Proof.
  apply (book_update_raises Instrument_ETF 1 [] [] [99] [3] init).
  reflexivity.
Defined.

(** X9: when the scanner returns a zero price or a zero volume, the
    book-update handler returns normally, sends nothing, allocates no order
    id and changes nothing but the stored ladders. *)
Theorem book_update_no_order i n ap av bp bv s p v side fp :
  result (get_max_possible_trade (final (store_ladders i ap av bp bv s))) =
    inr (p, v, side, fp) ->
  p = 0 \/ v = 0 ->
  on_order_book_update_message i n ap av bp bv s =
  mkOutcome (inr tt) (final (store_ladders i ap av bp bv s)) [].
Proof.
  rewrite store_ladders_outcome. cbn [final]. intros Hr Hz.
  rewrite on_order_book_update_message_cases. cbv zeta. rewrite Hr.
  destruct Hz as [-> | ->].
  - rewrite (bool_decide_eq_false_2 (0 ≠ 0)) by (intros H; apply H; reflexivity).
    reflexivity.
  - rewrite (bool_decide_eq_false_2 (0 ≠ 0)) by (intros H; apply H; reflexivity).
    rewrite andb_false_r. reflexivity.
Qed.

Lemma book_update_no_order_witness :
  on_order_book_update_message Instrument_ETF 1
    [100; 0; 0; 0; 0] [5; 0; 0; 0; 0] [99] [3]
    (run [OrderBookUpdate Instrument_FUTURE 1 [201] [7]
            [200; 0; 0; 0; 0] [3; 0; 0; 0; 0]] init) =
  mkOutcome (inr tt)
    (final (store_ladders Instrument_ETF
              [100; 0; 0; 0; 0] [5; 0; 0; 0; 0] [99] [3]
              (run [OrderBookUpdate Instrument_FUTURE 1 [201] [7]
                      [200; 0; 0; 0; 0] [3; 0; 0; 0; 0]] init))) [].
Proof.
  apply (book_update_no_order Instrument_ETF 1
           [100; 0; 0; 0; 0] [5; 0; 0; 0; 0] [99] [3] _ 0 3 BID 200);
    [reflexivity | left; reflexivity].
Defined.

(** X10: the sibling of the BID case.  When the scanner returns an ASK-side
    result with non-zero price and volume, the handler returns normally and
    sends exactly the order (next id, side ASK, the reported price and
    volume, lifespan [Lifespan.F]) and then the hedge (following id, side
    BID, the reported future price, the same volume). *)
Theorem ask_opportunity_submissions i n ap av bp bv s etf_price volume fut_price :
  result (get_max_possible_trade (final (store_ladders i ap av bp bv s))) =
    inr (etf_price, volume, ASK, fut_price) ->
  etf_price <> 0 -> volume <> 0 ->
  result (on_order_book_update_message i n ap av bp bv s) = inr tt /\
  sent (on_order_book_update_message i n ap av bp bv s) =
    [send_insert_order (order_ids s) ASK etf_price volume Lifespan_F;
     send_hedge_order (order_ids s + 1) BID fut_price volume].
Proof.
  intros Hscan Hp Hv. rewrite store_ladders_outcome in Hscan.
  cbn [final] in Hscan.
  rewrite on_order_book_update_message_cases. cbv zeta. rewrite Hscan.
  rewrite !bool_decide_eq_true_2 by assumption. cbn [andb result sent].
  destruct (stored_fields i ap av bp bv s) as (-> & _).
  split; reflexivity.
Qed.

Lemma ask_opportunity_submissions_witness :
  result (on_order_book_update_message Instrument_ETF 1 [210] [5] [205] [6]
            (run [OrderBookUpdate Instrument_FUTURE 1 [195] [4] [190] [3]] init))
    = inr tt /\
  sent (on_order_book_update_message Instrument_ETF 1 [210] [5] [205] [6]
          (run [OrderBookUpdate Instrument_FUTURE 1 [195] [4] [190] [3]] init)) =
    [send_insert_order 1 ASK 205 4 Lifespan_F; send_hedge_order 2 BID 195 4].
Proof.
  apply (ask_opportunity_submissions Instrument_ETF 1 [210] [5] [205] [6]
           (run [OrderBookUpdate Instrument_FUTURE 1 [195] [4] [190] [3]] init)
           205 4 195); [reflexivity | lia | lia].
Defined.

(** X11: whatever the object and the message, a book update sends either
    nothing or exactly one order followed by its hedge: the two carry the
    next two order ids, opposite sides and the same non-zero volume, the
    order has lifespan [Lifespan.F] and a non-zero price, and the order's
    price is strictly on the profitable side of the hedge's price (a BID
    order below its hedge, an ASK order above it). *)
Theorem book_update_messages_shape i n ap av bp bv s :
  sent (on_order_book_update_message i n ap av bp bv s) = [] \/
  exists side p v fp,
    sent (on_order_book_update_message i n ap av bp bv s) =
      [send_insert_order (order_ids s) side p v Lifespan_F;
       send_hedge_order (order_ids s + 1) (opposite side) fp v] /\
    p <> 0 /\ v <> 0 /\
    match side with BID => p < fp | ASK => fp < p end.
Proof.
  rewrite on_order_book_update_message_cases. cbv zeta.
  destruct (stored_fields i ap av bp bv s) as (-> & _).
  destruct (result (get_max_possible_trade _))
    as [e|[[[p v] side] fp]] eqn:Hr; [left; reflexivity|].
  destruct (bool_decide_reflect (p ≠ 0)) as [Hp|Hp]; [|left; reflexivity].
  destruct (bool_decide_reflect (v ≠ 0)) as [Hv|Hv]; [|left; reflexivity].
  right. exists side, p, v, fp. cbn [andb sent].
  split; [reflexivity|]. split; [exact Hp|]. split; [exact Hv|].
  destruct (get_max_possible_trade_result _ _ _ _ _ Hr)
    as [(_ & H0 & _)|[(-> & ask & bid & _ & _ & -> & -> & H)
                     |(-> & ask & bid & _ & _ & -> & -> & H)]];
    [contradiction | exact H | exact H].
Qed.

End ControllerFacts.

Section ControllerState.

(** X12: when the scanner returns a result with non-zero price and volume,
    the handler takes two ids from the counter, writes the first one and
    the reported price into the slot of the result's side, whatever id was
    resting there, and leaves the other side's slot and price, the working
    sets and the position as they were. *)
Theorem book_update_order_state i n ap av bp bv s p v side fp :
  result (get_max_possible_trade (final (store_ladders i ap av bp bv s))) =
    inr (p, v, side, fp) ->
  p <> 0 -> v <> 0 ->
  let s' := final (on_order_book_update_message i n ap av bp bv s) in
  order_ids s' = order_ids s + 2 /\ bids s' = bids s /\ asks s' = asks s /\
  position s' = position s /\
  match side with
  | BID => bid_id s' = order_ids s /\ bid_price s' = p /\
           ask_id s' = ask_id s /\ ask_price s' = ask_price s
  | ASK => ask_id s' = order_ids s /\ ask_price s' = p /\
           bid_id s' = bid_id s /\ bid_price s' = bid_price s
  end.
Proof.
  intros Hr Hp Hv s'. subst s'. rewrite store_ladders_outcome in Hr.
  cbn [final] in Hr. rewrite final_on_order_book_update_message. cbv zeta. rewrite Hr.
  rewrite !bool_decide_eq_true_2 by assumption. cbn [andb].
  destruct (stored_fields i ap av bp bv s)
    as (Ho & Hb & Ha & Hai & Hap & Hbi & Hbp & Hpos).
  destruct (placed_fields side p (stored i ap av bp bv s))
    as (-> & -> & -> & -> & Hside).
  pose proof (placed_prices side p (stored i ap av bp bv s)) as Hprice.
  rewrite Ho, Hb, Ha, Hpos.
  repeat (split; [reflexivity|]).
  destruct side; destruct Hside as [-> ->]; destruct Hprice as [-> ->];
    rewrite ?Ho, ?Hai, ?Hap, ?Hbi, ?Hbp; auto.
Qed.

Lemma book_update_order_state_witness :
  order_ids (final (on_order_book_update_message Instrument_FUTURE 2
                      [300] [7] [250] [3] bid_order_sent)) = 5 /\
  bid_id bid_order_sent = 1 /\
  bid_id (final (on_order_book_update_message Instrument_FUTURE 2
                   [300] [7] [250] [3] bid_order_sent)) = 3.
Proof.
  destruct (book_update_order_state Instrument_FUTURE 2 [300] [7] [250] [3]
              bid_order_sent 100 3 BID 250)
    as (Ho & _ & _ & _ & Hb & _); [reflexivity | lia | lia |].
  split; [exact Ho|]. split; [reflexivity | exact Hb].
Defined.

(** X13: the hedge-fill, fill, status and trade-ticks handlers never
    raise; the error handler raises in one case only, [UnicodeDecodeError]
    when its message is not valid UTF-8.  None of the five sends a
    message, and all leave the id counter, the two prices and the four
    ladders as they were: they can only touch the position, the slots and
    the working sets. *)
Theorem other_handlers_frame e s :
  (forall i n ap av bp bv, e <> OrderBookUpdate i n ap av bp bv) ->
  result (handle e s) =
    match e with
    | ErrorMessage _ m =>
        if decodes m then inr tt else inl UnicodeDecodeError
    | _ => inr tt
    end /\
  sent (handle e s) = [] /\
  order_ids (final (handle e s)) = order_ids s /\
  ask_price (final (handle e s)) = ask_price s /\
  bid_price (final (handle e s)) = bid_price s /\
  lastEtfBids (final (handle e s)) = lastEtfBids s /\
  lastEtfAsks (final (handle e s)) = lastEtfAsks s /\
  lastFutureBids (final (handle e s)) = lastFutureBids s /\
  lastFutureAsks (final (handle e s)) = lastFutureAsks s.
Proof.
  intros Hne.
  assert (Hc : forall i, order_ids (closed i s) = order_ids s /\
    ask_price (closed i s) = ask_price s /\ bid_price (closed i s) = bid_price s /\
    lastEtfBids (closed i s) = lastEtfBids s /\
    lastEtfAsks (closed i s) = lastEtfAsks s /\
    lastFutureBids (closed i s) = lastFutureBids s /\
    lastFutureAsks (closed i s) = lastFutureAsks s).
  { intros i. destruct (closed_fields i s) as (-> & _).
    destruct (closed_other_fields i s) as (-> & -> & -> & -> & -> & ->).
    repeat split; reflexivity. }
  destruct e; cbn [handle].
  - rewrite on_error_message_outcome. cbn [result sent final].
    split; [reflexivity|]. split; [reflexivity|].
    destruct (decodes error_message && _);
      [apply Hc | repeat split; reflexivity].
  - repeat split; reflexivity.
  - exfalso. eapply Hne. reflexivity.
  - rewrite on_order_filled_message_outcome. cbn [result sent final].
    repeat case_bool_decide; repeat split; reflexivity.
  - rewrite on_order_status_message_outcome. cbn [result sent final].
    split; [reflexivity|]. split; [reflexivity|].
    case_bool_decide; [apply Hc | repeat split; reflexivity].
  - repeat split; reflexivity.
Qed.

Lemma other_handlers_frame_witness :
  result (handle (OrderStatus 1 3 0 0) bid_order_sent) = inr tt /\
  sent (handle (OrderStatus 1 3 0 0) bid_order_sent) = [] /\
  order_ids (final (handle (OrderStatus 1 3 0 0) bid_order_sent)) = 3 /\
  result (handle (ErrorMessage 1 [Byte.xff]) bid_order_sent) =
    inl UnicodeDecodeError.
Proof.
  destruct (other_handlers_frame (OrderStatus 1 3 0 0) bid_order_sent)
    as (Hr & Hs & Ho & _); [discriminate|].
  destruct (other_handlers_frame (ErrorMessage 1 [Byte.xff]) bid_order_sent)
    as (He & _); [discriminate|].
  split; [exact Hr|]. split; [exact Hs|].
  split; [rewrite Ho; reflexivity | exact He].
Defined.

End ControllerState.

Section RunFacts.

(** The counter and the messages of one event. *)
Lemma handle_ids e s :
  order_ids s <= order_ids (final (handle e s)) /\
  List.map message_id (sent (handle e s)) =
  seqZ (order_ids s) (order_ids (final (handle e s)) - order_ids s).
Proof.
  assert (Hq : forall o : Outcome unit,
    sent o = [] -> order_ids (final o) = order_ids s ->
    order_ids s <= order_ids (final o) /\
    List.map message_id (sent o) =
    seqZ (order_ids s) (order_ids (final o) - order_ids s)).
  { intros o -> ->. rewrite Z.sub_diag. split; [lia | reflexivity]. }
  destruct e; cbn [handle].
  - apply Hq; rewrite on_error_message_outcome; cbn [sent final];
      [reflexivity|].
    destruct (_ && _); [|reflexivity]. apply (closed_fields client_order_id s).
  - apply Hq; reflexivity.
  - rewrite on_order_book_update_message_cases. cbv zeta.
    destruct (stored_fields instrument ask_prices ask_volumes bid_prices
                bid_volumes s) as (Ho & _).
    destruct (result _) as [?|[[[p v] side] fp]];
      [apply Hq; [reflexivity | exact Ho]|].
    destruct (_ && _); [|apply Hq; [reflexivity | exact Ho]].
    cbn [final sent].
    destruct (placed_fields side p (stored instrument ask_prices ask_volumes
                bid_prices bid_volumes s)) as (-> & _).
    rewrite Ho. split; [lia|].
    replace (order_ids s + 2 - order_ids s) with 2 by lia.
    rewrite (seqZ_cons _ 2) by lia. rewrite (seqZ_cons _ (Z.pred 2)) by lia.
    rewrite seqZ_nil by lia. cbn [List.map message_id].
    reflexivity.
  - apply Hq; rewrite on_order_filled_message_outcome; cbn [sent final];
      [reflexivity|]. repeat case_bool_decide; reflexivity.
  - apply Hq; rewrite on_order_status_message_outcome; cbn [sent final];
      [reflexivity|].
    case_bool_decide; [|reflexivity]. apply (closed_fields client_order_id s).
  - apply Hq; reflexivity.
Qed.

Lemma run_ids es s :
  order_ids s <= order_ids (run es s) /\
  List.map message_id (run_sent es s) =
  seqZ (order_ids s) (order_ids (run es s) - order_ids s).
Proof.
  revert s. induction es as [|e es IH]; intros s.
  - cbn. rewrite Z.sub_diag. split; [lia | reflexivity].
  - cbn [run fold_left run_sent]. fold (run es (final (handle e s))).
    destruct (handle_ids e s) as [Hle He].
    destruct (IH (final (handle e s))) as [Hle' He'].
    split; [lia|]. rewrite List.map_app, He, He'.
    set (n := order_ids s) in *. set (a := order_ids (final (handle e s))) in *.
    set (b := order_ids (run es (final (handle e s)))) in *.
    replace (b - n) with ((a - n) + (b - a)) by lia.
    rewrite seqZ_app by lia. do 2 f_equal. lia.
Qed.

(** X14: in every run from [__init__] the k-th message sent carries the
    order id k: the ids of the messages, in the order they are sent, are
    1, 2, ..., up to the value of the counter minus one.  No id is sent
    twice and none is skipped. *)
Theorem run_message_ids es :
  List.map message_id (run_sent es init) =
  seqZ 1 (order_ids (run es init) - 1).
Proof. exact (proj2 (run_ids es init)). Qed.

End RunFacts.

Section RunInvariants.

Lemma handle_messages_ok e s :
  Z.odd (order_ids s) = true ->
  Forall message_ok (sent (handle e s)) /\
  Z.odd (order_ids (final (handle e s))) = true.
Proof.
  intros Hodd.
  destruct (handle_ids e s) as [_ Hids].
  destruct e; cbn [handle] in *.
  - rewrite on_error_message_outcome in *. cbn [sent final] in *.
    split; [constructor|]. destruct (_ && _); [|exact Hodd].
    destruct (closed_fields client_order_id s) as (-> & _). exact Hodd.
  - split; [constructor | exact Hodd].
  - clear Hids. rewrite on_order_book_update_message_cases. cbv zeta.
    destruct (stored_fields instrument ask_prices ask_volumes bid_prices
                bid_volumes s) as (Ho & _).
    destruct (result _) as [?|[[[p v] side] fp]];
      [cbn [sent final]; split; [constructor | rewrite Ho; exact Hodd]|].
    destruct (bool_decide_reflect (p ≠ 0)) as [Hp|Hp];
      [|cbn [andb sent final]; split; [constructor | rewrite Ho; exact Hodd]].
    destruct (bool_decide_reflect (v ≠ 0)) as [Hv|Hv];
      [|cbn [andb sent final]; split; [constructor | rewrite Ho; exact Hodd]].
    cbn [andb sent final].
    destruct (placed_fields side p (stored instrument ask_prices ask_volumes
                bid_prices bid_volumes s)) as (-> & _).
    rewrite Ho. split.
    + constructor; [|constructor; [|constructor]]; cbn.
      * auto.
      * split; [|exact Hv]. rewrite Z.even_add, <- Z.negb_odd, Hodd. reflexivity.
    + rewrite Z.odd_add, Hodd. reflexivity.
  - rewrite on_order_filled_message_outcome. cbn [sent final].
    split; [constructor|]. repeat case_bool_decide; exact Hodd.
  - rewrite on_order_status_message_outcome. cbn [sent final].
    split; [constructor|]. case_bool_decide; [|exact Hodd].
    destruct (closed_fields client_order_id s) as (-> & _). exact Hodd.
  - split; [constructor | exact Hodd].
Qed.

Lemma run_sent_ok es s :
  Z.odd (order_ids s) = true -> Forall message_ok (run_sent es s).
Proof.
  revert s. induction es as [|e es IH]; intros s Hodd; [constructor|].
  cbn [run_sent]. destruct (handle_messages_ok e s Hodd) as [Hm Ho].
  apply Forall_app. split; [exact Hm | apply IH; exact Ho].
Qed.

(** X15: in every run from [__init__], every order sent has an odd id, the
    lifespan [Lifespan.F], a non-zero price and a non-zero volume, and
    every hedge sent has an even id and a non-zero volume. *)
Theorem run_messages_ok es : Forall message_ok (run_sent es init).
Proof. apply run_sent_ok. reflexivity. Qed.

Lemma slots_handle e s :
  1 <= order_ids s /\ Z.odd (order_ids s) = true /\
  slot_ok (bid_id s) (bid_price s) (order_ids s) /\
  slot_ok (ask_id s) (ask_price s) (order_ids s) /\
  (bid_id s = ask_id s -> bid_id s = 0) ->
  let s' := final (handle e s) in
  1 <= order_ids s' /\ Z.odd (order_ids s') = true /\
  slot_ok (bid_id s') (bid_price s') (order_ids s') /\
  slot_ok (ask_id s') (ask_price s') (order_ids s') /\
  (bid_id s' = ask_id s' -> bid_id s' = 0).
Proof.
  intros HI s'. subst s'.
  assert (Hclosed : forall i,
    1 <= order_ids (closed i s) /\ Z.odd (order_ids (closed i s)) = true /\
    slot_ok (bid_id (closed i s)) (bid_price (closed i s)) (order_ids (closed i s)) /\
    slot_ok (ask_id (closed i s)) (ask_price (closed i s)) (order_ids (closed i s)) /\
    (bid_id (closed i s) = ask_id (closed i s) -> bid_id (closed i s) = 0)).
  { intros i. destruct HI as (Hn & Hodd & Hb & Ha & Hne).
    destruct (closed_fields i s) as (-> & _ & _ & _ & -> & ->).
    destruct (closed_other_fields i s) as (-> & -> & _).
    unfold slot_ok in *.
    repeat case_bool_decide; repeat split; auto; try lia. }
  rewrite final_handle. destruct e.
  - destruct (_ && _); [apply Hclosed | exact HI].
  - exact HI.
  - cbv zeta.
    destruct (stored_fields instrument ask_prices ask_volumes bid_prices
                bid_volumes s) as (Ho & _ & _ & Hai & Hap & Hbi & Hbp & _).
    assert (HI1 : let s1 := stored instrument ask_prices ask_volumes
                              bid_prices bid_volumes s in
      1 <= order_ids s1 /\ Z.odd (order_ids s1) = true /\
      slot_ok (bid_id s1) (bid_price s1) (order_ids s1) /\
      slot_ok (ask_id s1) (ask_price s1) (order_ids s1) /\
      (bid_id s1 = ask_id s1 -> bid_id s1 = 0)).
    { cbv zeta. rewrite Ho, Hai, Hap, Hbi, Hbp. exact HI. }
    cbv zeta in HI1.
    destruct (result _) as [?|[[[p v] side] fp]]; [exact HI1|].
    destruct (bool_decide_reflect (p ≠ 0)) as [Hp|Hp]; [|exact HI1].
    destruct (bool_decide (v ≠ 0)); cbn [andb]; [|exact HI1].
    destruct HI1 as (Hn & Hodd & Hb & Ha & Hne).
    destruct (placed_fields side p (stored instrument ask_prices ask_volumes
                bid_prices bid_volumes s)) as (-> & _ & _ & _ & Hside).
    pose proof (placed_prices side p (stored instrument ask_prices
                  ask_volumes bid_prices bid_volumes s)) as Hprice.
    unfold slot_ok in *.
    destruct side; destruct Hside as [-> ->]; destruct Hprice as [-> ->];
      (split; [lia|]); (split; [rewrite Z.odd_add, Hodd; reflexivity|]);
      repeat split; try lia;
      try (right; repeat split; solve [assumption | lia]);
      try (destruct Ha as [Ha|(? & ? & ?)]; [left; exact Ha | right; repeat split; solve [assumption | lia]]);
      try (destruct Hb as [Hb|(? & ? & ?)]; [left; exact Hb | right; repeat split; solve [assumption | lia]]).
    all: intros Heq; destruct Ha as [Ha|(? & ? & ?)], Hb as [Hb|(? & ? & ?)]; lia.
  - repeat case_bool_decide; exact HI.
  - case_bool_decide; [apply Hclosed | exact HI].
  - exact HI.
Qed.

(** X16: in every reachable state the id counter is odd and at least 1,
    the two slots are either 0 or an odd id already allocated, with a
    non-zero price beside it, and the two slots never hold the same
    non-zero id. *)
Theorem reachable_slots s :
  reachable s ->
  1 <= order_ids s /\ Z.odd (order_ids s) = true /\
  slot_ok (bid_id s) (bid_price s) (order_ids s) /\
  slot_ok (ask_id s) (ask_price s) (order_ids s) /\
  (bid_id s = ask_id s -> bid_id s = 0).
Proof.
  induction 1 as [|s e _ IH].
  - cbn. unfold slot_ok. repeat split; auto; lia.
  - apply (slots_handle e s IH).
Qed.

Lemma reachable_slots_witness :
  1 <= order_ids bid_order_sent /\ Z.odd (order_ids bid_order_sent) = true /\
  slot_ok (bid_id bid_order_sent) (bid_price bid_order_sent)
    (order_ids bid_order_sent) /\
  slot_ok (ask_id bid_order_sent) (ask_price bid_order_sent)
    (order_ids bid_order_sent) /\
  (bid_id bid_order_sent = ask_id bid_order_sent -> bid_id bid_order_sent = 0).
Proof.
  apply (reachable_slots bid_order_sent).
  apply (reachable_run future_then_etf init reachable_init).
Defined.

(** X17: in every reachable state the error handler changes nothing and
    sends nothing, for any order id: the working sets are empty, so the id
    of a rejected order is never found and its slot is not cleared.  The
    call returns normally when the message is valid UTF-8 and raises
    [UnicodeDecodeError] otherwise. *)
Theorem error_ignored_when_reachable s i m :
  reachable s ->
  on_error_message i m s =
  mkOutcome (if decodes m then inr tt else inl UnicodeDecodeError) s [].
Proof.
  intros Hr. rewrite on_error_message_outcome.
  destruct (reachable_Inv s Hr) as (_ & _ & _ & _ & Hb & Ha & _).
  rewrite Hb, Ha.
  rewrite !(bool_decide_eq_false_2 (i ∈ ∅)) by apply not_elem_of_empty.
  rewrite !andb_false_r. reflexivity.
Qed.

Lemma error_ignored_when_reachable_witness :
  bid_id bid_order_sent = 1 /\
  on_error_message 1 [Byte.x6e; Byte.x6f] bid_order_sent =
    mkOutcome (inr tt) bid_order_sent [] /\
  on_error_message 1 [Byte.xff] bid_order_sent =
    mkOutcome (inl UnicodeDecodeError) bid_order_sent [].
Proof.
  split; [reflexivity|]. split.
  - apply (error_ignored_when_reachable bid_order_sent 1 [Byte.x6e; Byte.x6f]).
    apply (reachable_run future_then_etf init reachable_init).
  - apply (error_ignored_when_reachable bid_order_sent 1 [Byte.xff]).
    apply (reachable_run future_then_etf init reachable_init).
Defined.

End RunInvariants.

Section LedgerFacts.

(** X18: a status message for an id that is in neither slot and in neither
    working set changes nothing, whatever its remaining volume. *)
Theorem status_unknown_id_ignored s i f r c :
  i <> bid_id s -> i <> ask_id s -> i ∉ bids s -> i ∉ asks s ->
  on_order_status_message i f r c s = mkOutcome (inr tt) s [].
Proof.
  intros Hb Ha Hbs Has. rewrite on_order_status_message_outcome.
  case_bool_decide; [|reflexivity]. f_equal.
  destruct (closed_fields i s) as (H1 & H2 & H3 & H4 & H5 & H6).
  destruct (closed_other_fields i s) as (H7 & H8 & H9 & H10 & H11 & H12).
  rewrite (bool_decide_eq_false_2 (i = bid_id s)) in H5, H6 by assumption.
  rewrite (bool_decide_eq_false_2 (i = ask_id s)) in H6 by assumption.
  apply AutoTrader_eq; try assumption.
  - rewrite H2. set_solver.
  - rewrite H3. set_solver.
Qed.

Lemma status_unknown_id_ignored_witness :
  on_order_status_message 999 0 0 0 bid_order_sent =
  mkOutcome (inr tt) bid_order_sent [].
Proof.
  apply (status_unknown_id_ignored bid_order_sent 999 0 0 0);
    vm_compute; solve [discriminate | apply not_elem_of_empty].
Defined.

(** X19: once a status message with remaining volume 0 has been handled
    for an id, a later fill for that id is ignored: the id has left both
    working sets, in any state. *)
Theorem fill_after_close_ignored s i f c p v :
  on_order_filled_message i p v (final (on_order_status_message i f 0 c s)) =
  mkOutcome (inr tt) (final (on_order_status_message i f 0 c s)) [].
Proof.
  rewrite on_order_status_message_outcome. cbn [final].
  rewrite bool_decide_eq_true_2 by reflexivity.
  rewrite on_order_filled_message_outcome.
  destruct (closed_fields i s) as (_ & -> & -> & _).
  rewrite !bool_decide_eq_false_2 by set_solver. reflexivity.
Qed.

(** X20: a status message for an id leaves every other id where it was: in
    or out of each working set, and in its slot. *)
Theorem status_other_ids_kept s i f r c j :
  j <> i ->
  (j ∈ bids (final (on_order_status_message i f r c s)) <-> j ∈ bids s) /\
  (j ∈ asks (final (on_order_status_message i f r c s)) <-> j ∈ asks s) /\
  (bid_id s = j -> bid_id (final (on_order_status_message i f r c s)) = j) /\
  (ask_id s = j -> ask_id (final (on_order_status_message i f r c s)) = j).
Proof.
  intros Hne. rewrite on_order_status_message_outcome. cbn [final].
  case_bool_decide; [|tauto].
  destruct (closed_fields i s) as (_ & -> & -> & _ & -> & ->).
  split; [set_solver|]. split; [set_solver|].
  split; intros <-; repeat case_bool_decide; congruence.
Qed.

Lemma status_other_ids_kept_witness :
  bid_id (final (on_order_status_message 2 0 0 0 bid_order_sent)) = 1.
Proof.
  destruct (status_other_ids_kept bid_order_sent 2 0 0 0 1)
    as (_ & _ & Hb & _); [lia|].
  apply Hb. reflexivity.
Defined.

(** X21: fills add up and commute: two fills for the same id have the
    effect of one fill of the summed volume (the fill price plays no
    part), and two fills for any two ids can be handled in either order. *)
Theorem fills_accumulate_and_commute s i p v j q w p' :
  final (on_order_filled_message i q w
           (final (on_order_filled_message i p v s))) =
    final (on_order_filled_message i p' (v + w) s) /\
  final (on_order_filled_message j q w
           (final (on_order_filled_message i p v s))) =
    final (on_order_filled_message i p v
             (final (on_order_filled_message j q w s))).
Proof.
  rewrite !on_order_filled_message_outcome. cbn [final].
  split.
  - destruct (bool_decide (i ∈ bids s)) eqn:Hb.
    + cbn [bids set_position]. rewrite Hb.
      unfold set_position. cbn. f_equal. lia.
    + destruct (bool_decide (i ∈ asks s)) eqn:Ha.
      * cbn [bids asks set_position]. rewrite Hb, Ha.
        unfold set_position. cbn. f_equal. lia.
      * rewrite Hb, Ha. reflexivity.
  - destruct (bool_decide (i ∈ bids s)) eqn:Hb;
      destruct (bool_decide (j ∈ bids s)) eqn:Hb';
      destruct (bool_decide (i ∈ asks s)) eqn:Ha;
      destruct (bool_decide (j ∈ asks s)) eqn:Ha';
      cbn [bids asks set_position]; rewrite ?Hb, ?Hb', ?Ha, ?Ha';
      unfold set_position; cbn; f_equal; lia.
Qed.

End LedgerFacts.

Section StoreFacts.

(** The four ladders after a book update. *)
Lemma book_update_ladders i n ap av bp bv s :
  let s' := final (on_order_book_update_message i n ap av bp bv s) in
  (lastEtfBids s', lastEtfAsks s', lastFutureBids s', lastFutureAsks s') =
  (if bool_decide (i = Instrument_ETF)
   then (zip bp bv, zip ap av, lastFutureBids s, lastFutureAsks s)
   else (lastEtfBids s, lastEtfAsks s, zip bp bv, zip ap av)).
Proof.
  intros s'. subst s'. rewrite final_on_order_book_update_message. cbv zeta.
  assert (Hs1 :
    (lastEtfBids (stored i ap av bp bv s), lastEtfAsks (stored i ap av bp bv s),
     lastFutureBids (stored i ap av bp bv s),
     lastFutureAsks (stored i ap av bp bv s)) =
    (if bool_decide (i = Instrument_ETF)
     then (zip bp bv, zip ap av, lastFutureBids s, lastFutureAsks s)
     else (lastEtfBids s, lastEtfAsks s, zip bp bv, zip ap av)))
    by (unfold stored; case_bool_decide; reflexivity).
  destruct (result _) as [?|[[[p v] side] fp]]; [exact Hs1|].
  destruct (_ && _); [|exact Hs1].
  destruct side; exact Hs1.
Qed.

(** X22: the last write wins.  After two book updates for the same
    instrument the four stored ladders are those that the second update
    alone would have left, whatever the two sequence numbers are (the
    handler never compares them, so a stale update overwrites a newer
    one). *)
Theorem book_update_last_write_wins i n1 ap1 av1 bp1 bv1 n2 ap2 av2 bp2 bv2 s :
  let s12 := final (on_order_book_update_message i n2 ap2 av2 bp2 bv2
                      (final (on_order_book_update_message i n1 ap1 av1 bp1 bv1 s))) in
  let s2 := final (on_order_book_update_message i n2 ap2 av2 bp2 bv2 s) in
  (lastEtfBids s12, lastEtfAsks s12, lastFutureBids s12, lastFutureAsks s12) =
  (lastEtfBids s2, lastEtfAsks s2, lastFutureBids s2, lastFutureAsks s2).
Proof.
  intros s12 s2. subst s12 s2. rewrite !book_update_ladders.
  pose proof (book_update_ladders i n1 ap1 av1 bp1 bv1 s) as H1.
  cbv zeta in H1.
  destruct (bool_decide (i = Instrument_ETF));
    injection H1 as E1 E2 E3 E4; congruence.
Qed.

End StoreFacts.

Section Constants.

(** X24: [MIN_BID_NEAREST_TICK] is the least multiple of the tick size
    strictly above [MINIMUM_BID]: when [MINIMUM_BID] is itself a multiple
    of the tick it is one whole tick above it. *)
Theorem MIN_BID_NEAREST_TICK_least_above m :
  (TICK_SIZE_IN_CENTS | MIN_BID_NEAREST_TICK m) /\
  m < MIN_BID_NEAREST_TICK m <= m + TICK_SIZE_IN_CENTS /\
  forall k, (TICK_SIZE_IN_CENTS | k) -> m < k -> MIN_BID_NEAREST_TICK m <= k.
Proof.
  unfold MIN_BID_NEAREST_TICK, TICK_SIZE_IN_CENTS.
  pose proof (Z.div_mod (m + 100) 100 ltac:(lia)) as Hd.
  pose proof (Z.mod_pos_bound (m + 100) 100 ltac:(lia)) as Hm.
  split; [exists ((m + 100) / 100); reflexivity|].
  split; [lia|]. intros k [c ->] Hk. lia.
Qed.

Lemma MIN_BID_NEAREST_TICK_least_above_witness :
  MIN_BID_NEAREST_TICK 1 = 100 /\ MIN_BID_NEAREST_TICK 100 = 200 /\
  MIN_BID_NEAREST_TICK 100 <= 300.
Proof.
  split; [reflexivity|]. split; [reflexivity|].
  destruct (MIN_BID_NEAREST_TICK_least_above 100) as (_ & _ & H).
  apply (H 300); [exists 3; reflexivity | lia].
Defined.

(** X25: [MAX_ASK_NEAREST_TICK] is the greatest multiple of the tick size
    that does not exceed [MAXIMUM_ASK]. *)
Theorem MAX_ASK_NEAREST_TICK_greatest_below m :
  (TICK_SIZE_IN_CENTS | MAX_ASK_NEAREST_TICK m) /\
  m - TICK_SIZE_IN_CENTS < MAX_ASK_NEAREST_TICK m <= m /\
  forall k, (TICK_SIZE_IN_CENTS | k) -> k <= m -> k <= MAX_ASK_NEAREST_TICK m.
Proof.
  unfold MAX_ASK_NEAREST_TICK, TICK_SIZE_IN_CENTS.
  pose proof (Z.div_mod m 100 ltac:(lia)) as Hd.
  pose proof (Z.mod_pos_bound m 100 ltac:(lia)) as Hm.
  split; [exists (m / 100); reflexivity|].
  split; [lia|]. intros k [c ->] Hk. lia.
Qed.

Lemma MAX_ASK_NEAREST_TICK_greatest_below_witness :
  MAX_ASK_NEAREST_TICK 2147483647 = 2147483600 /\
  2147483500 <= MAX_ASK_NEAREST_TICK 2147483647.
Proof.
  split; [reflexivity|].
  destruct (MAX_ASK_NEAREST_TICK_greatest_below 2147483647) as (_ & _ & H).
  apply (H 2147483500); [exists 21474835; reflexivity | lia].
Defined.

End Constants.

Section EdgeCases.

Lemma zip_nil_either (ap av : list Z) : ap = [] \/ av = [] -> zip ap av = [].
Proof. intros [-> | ->]; [reflexivity | destruct ap; reflexivity]. Qed.

Lemma scanner_raises_without_etf_asks s :
  lastEtfAsks s = [] -> result (get_max_possible_trade s) = inl IndexError.
Proof.
  intros H. generalize (get_max_possible_trade_cases s). rewrite H. auto.
Qed.

(** X27: an ETF update whose ask prices or ask volumes are empty makes the
    handler raise [IndexError] with the empty ask ladder stored, and then
    every update for the other instrument raises too, sending nothing,
    for as long as no ETF update replaces that ladder. *)
Theorem empty_etf_asks_block_updates n ap av bp bv s :
  ap = [] \/ av = [] ->
  result (on_order_book_update_message Instrument_ETF n ap av bp bv s) =
    inl IndexError /\
  forall j n' ap' av' bp' bv',
    j <> Instrument_ETF ->
    result (on_order_book_update_message j n' ap' av' bp' bv'
              (final (on_order_book_update_message Instrument_ETF n
                        ap av bp bv s))) = inl IndexError /\
    sent (on_order_book_update_message j n' ap' av' bp' bv'
            (final (on_order_book_update_message Instrument_ETF n
                      ap av bp bv s))) = [].
Proof.
  intros Hnil. apply zip_nil_either in Hnil.
  assert (H1 : lastEtfAsks (stored Instrument_ETF ap av bp bv s) = [])
    by (unfold stored; rewrite bool_decide_eq_true_2 by reflexivity;
        exact Hnil).
  assert (Hf : on_order_book_update_message Instrument_ETF n ap av bp bv s =
               mkOutcome (inl IndexError) (stored Instrument_ETF ap av bp bv s) []).
  { rewrite on_order_book_update_message_cases. cbv zeta.
    rewrite (scanner_raises_without_etf_asks _ H1). reflexivity. }
  rewrite Hf. cbn [result final]. split; [reflexivity|].
  intros j n' ap' av' bp' bv' Hj.
  rewrite on_order_book_update_message_cases. cbv zeta.
  rewrite scanner_raises_without_etf_asks; [split; reflexivity|].
  unfold stored at 1. rewrite (bool_decide_eq_false_2 (j = Instrument_ETF)) by exact Hj.
  exact H1.
Qed.

Lemma empty_etf_asks_block_updates_witness :
  result (on_order_book_update_message Instrument_FUTURE 2 [201] [7] [200] [3]
            (final (on_order_book_update_message Instrument_ETF 1
                      [] [] [99] [3] init))) = inl IndexError.
Proof.
  destruct (empty_etf_asks_block_updates 1 [] [] [99] [3] init) as [_ H];
    [left; reflexivity|].
  apply (H Instrument_FUTURE 2 [201] [7] [200] [3]). discriminate.
Defined.

Lemma accumulated_volume_zero ps :
  (forall q, In q ps -> Z.min q.1.2 q.2.2 = 0) -> accumulated_volume ps = 0.
Proof.
  induction ps as [|q qs IH]; intros H; [reflexivity|].
  cbn [accumulated_volume fold_right].
  assert (Z.min q.1.2 q.2.2 = 0) by (apply H; left; reflexivity).
  assert (accumulated_volume qs = 0)
    by (apply IH; intros; apply H; right; assumption).
  unfold accumulated_volume in *. lia.
Qed.

Lemma qualifying_volume_zero outer inner :
  (volumes_nonneg outer /\ Forall (fun x : Level => x.2 = 0) inner) \/
  (Forall (fun x : Level => x.2 = 0) outer /\ volumes_nonneg inner) ->
  accumulated_volume (qualifying_pairs outer inner) = 0.
Proof.
  intros H. apply accumulated_volume_zero. intros q Hq.
  apply in_qualifying_pairs in Hq. destruct Hq as (H1 & H2 & _).
  unfold volumes_nonneg in H. rewrite !List.Forall_forall in H.
  destruct H as [[Ho Hi]|[Ho Hi]];
    specialize (Ho _ H1); specialize (Hi _ H2);
    destruct q as [[a1 a2] [b1 b2]]; cbn in *; lia.
Qed.

Lemma volumes_nonneg_zip (ps vs : list Z) :
  Forall (fun v => 0 <= v) vs -> volumes_nonneg (zip ps vs).
Proof.
  unfold volumes_nonneg. intros Hv. revert ps.
  induction Hv as [|v vs Hv0 _ IH]; intros [|p ps]; cbn; constructor;
    [exact Hv0 | apply IH].
Qed.

(** The scanner returns the volume 0 when both cross products have a
    ladder of volume 0 on one side and no negative volume on the other. *)
Lemma scanner_volume_zero s p v side fp :
  accumulated_volume (qualifying_pairs (lastEtfAsks s) (lastFutureBids s)) = 0 ->
  accumulated_volume (qualifying_pairs (lastFutureAsks s) (lastEtfBids s)) = 0 ->
  result (get_max_possible_trade s) = inr (p, v, side, fp) -> v = 0.
Proof.
  intros Hbuy Hsell Hres. revert Hbuy Hsell.
  generalize (get_max_possible_trade_cases s). rewrite Hres.
  destruct (lastEtfAsks s) as [|a0 ra]; [discriminate|].
  destruct (lastFutureBids s) as [|b0 rb]; [discriminate|].
  destruct (a0.1 <? b0.1).
  - cbv zeta. intros Hc Hbuy _. injection Hc as _ -> _ _. exact Hbuy.
  - destruct (lastEtfBids s) as [|b0' rb']; [discriminate|].
    destruct (lastFutureAsks s) as [|a0' ra']; [discriminate|].
    destruct (a0'.1 <? b0'.1); cbv zeta; intros Hc _ Hsell.
    + injection Hc as _ -> _ _. exact Hsell.
    + injection Hc as _ -> _ _. reflexivity.
Qed.

Lemma first_book_update_outcome i n ap av bp bv :
  Forall (fun v => 0 <= v) av -> Forall (fun v => 0 <= v) bv ->
  sent (on_order_book_update_message i n ap av bp bv init) = [] /\
  final (on_order_book_update_message i n ap av bp bv init) =
    stored i ap av bp bv init.
Proof.
  intros Hav Hbv.
  pose proof (volumes_nonneg_zip ap av Hav) as Ha.
  pose proof (volumes_nonneg_zip bp bv Hbv) as Hb.
  assert (Hz : Forall (fun x : Level => x.2 = 0) [(0, 0); (0, 0)])
    by (repeat constructor).
  rewrite on_order_book_update_message_cases. cbv zeta.
  destruct (result _) as [e|[[[p v] side] fp]] eqn:Hr; [split; reflexivity|].
  assert (Hv : v = 0).
  { apply (scanner_volume_zero _ _ _ _ _) with (3 := Hr);
      unfold stored; case_bool_decide; cbn [lastEtfAsks lastFutureBids
        lastFutureAsks lastEtfBids set_lastEtfAsks set_lastEtfBids
        set_lastFutureAsks set_lastFutureBids init];
      apply qualifying_volume_zero; auto. }
  subst v. rewrite (bool_decide_eq_false_2 (0 ≠ 0)) by (intros H; apply H; reflexivity).
  rewrite andb_false_r. split; reflexivity.
Qed.

(** X23: the first book update of a run sends nothing, whichever
    instrument it is for, as long as its volumes are not negative: the
    ladders of the other instrument are still the (0,0) levels of
    [__init__], so the accumulated volume is 0. *)
Theorem first_book_update_sends_nothing i n ap av bp bv :
  Forall (fun v => 0 <= v) av -> Forall (fun v => 0 <= v) bv ->
  sent (on_order_book_update_message i n ap av bp bv init) = [].
Proof.
  intros Hav Hbv. apply (first_book_update_outcome i n ap av bp bv Hav Hbv).
Qed.

Lemma first_book_update_sends_nothing_witness :
  sent (on_order_book_update_message Instrument_ETF 1
          [100; 101] [5; 5] [99; 98] [3; 4] init) = [].
Proof.
  apply (first_book_update_sends_nothing Instrument_ETF 1
           [100; 101] [5; 5] [99; 98] [3; 4]);
    repeat constructor; lia.
Defined.

(** X26: nothing bounds the volume of an order: with one ETF ask and one
    future bid of volume [v] each, the ask below the bid, the order and
    its hedge are sent for the whole volume [v], also above
    [POSITION_LIMIT], and whatever [LOT_SIZE] is. *)
Theorem order_volume_not_limited v :
  POSITION_LIMIT < v ->
  sent (on_order_book_update_message Instrument_ETF 2 [100] [v] [99] [3]
          (final (on_order_book_update_message Instrument_FUTURE 1
                    [201] [7] [200] [v] init))) =
  [send_insert_order 1 BID 100 v Lifespan_F; send_hedge_order 2 ASK 200 v].
Proof.
  unfold POSITION_LIMIT. intros Hv.
  destruct (first_book_update_outcome Instrument_FUTURE 1 [201] [7] [200] [v])
    as [_ ->]; [repeat constructor; lia | repeat constructor; lia |].
  rewrite on_order_book_update_message_cases. cbv zeta.
  set (s2 := stored Instrument_ETF [100] [v] [99] [3]
               (stored Instrument_FUTURE [201] [7] [200] [v] init)).
  assert (Ha : lastEtfAsks s2 = [(100, v)]) by reflexivity.
  assert (Hb : lastFutureBids s2 = [(200, v)]) by reflexivity.
  pose proof (get_max_possible_trade_buy s2 (100, v) [] (200, v) [] Ha Hb
                ltac:(cbn; lia)) as Hr.
  cbv zeta in Hr. rewrite Ha, Hb in Hr.
  assert (Hr' : result (get_max_possible_trade s2) = inr (100, v, BID, 200)).
  { rewrite Hr. cbn. rewrite Z.min_id, Z.add_0_r. reflexivity. }
  rewrite Hr'.
  rewrite (bool_decide_eq_true_2 (100 ≠ 0)) by lia.
  rewrite (bool_decide_eq_true_2 (v ≠ 0)) by lia.
  reflexivity.
Qed.

Lemma order_volume_not_limited_witness :
  sent (on_order_book_update_message Instrument_ETF 2 [100] [1000] [99] [3]
          (final (on_order_book_update_message Instrument_FUTURE 1
                    [201] [7] [200] [1000] init))) =
  [send_insert_order 1 BID 100 1000 Lifespan_F; send_hedge_order 2 ASK 200 1000].
Proof.
  apply (order_volume_not_limited 1000). unfold POSITION_LIMIT. lia.
Defined.

End EdgeCases.
